(** * Word Duel server: room store and game handler

    A shallow embedding of the room/game state machine of the Word Duel
    server:
    - [utils/roomManager.js]  (class [RoomManager], and the [WordValidator]
      class that lives in the same file),
    - [socket/gameHandler.js] (class [GameHandler], the Socket.IO layer),
    - [server/index.js]       (the older single-file server, whose
      [submit-guess] handler is kept as module [Legacy]),
    - [routes/game.js]        (the counters of [GET /rooms]).

    Modelling conventions.
    - The [Map] of rooms is a [gmap string Room]; a room object that several
      references share in the JavaScript is the entry stored under its code,
      and a mutation of the object is an update of that entry.
    - [new Date()] is an explicit argument [now] (milliseconds, in [Z]); a
      single call reads the clock once.
    - [Math.random()] is an explicit argument.
    - A [throw] is the constructor [Throw], which carries the store as it is
      when the exception leaves the function: JavaScript does not roll back.
    - A string is the sequence of its UTF-16 code units, for the strings
      whose code units are all below 256 (the type [ascii], ASCII and the
      Latin-1 supplement). [trim] and the regular expressions are exact on
      these strings; [toUpperCase] is exact on those that satisfy
      [JsString.upper_fits].
    - A [catch] block runs its statements in order: an exception thrown by
      one of them ends the block and leaves the function. *)

From Stdlib Require Import ZArith String Ascii.
From stdpp Require Import base option list strings gmap fin_maps.

Local Open Scope string_scope.
Local Open Scope list_scope.
Local Open Scope nat_scope.

(** ** Strings: the fragment of the JavaScript string API the server uses *)

Module JsString.

Definition code_unit (c : ascii) : nat := nat_of_ascii c.

(** [A-Z] *)
Definition is_upper (c : ascii) : bool :=
  Nat.leb 65 (code_unit c) && Nat.leb (code_unit c) 90.

(** [a-z] *)
Definition is_lower (c : ascii) : bool :=
  Nat.leb 97 (code_unit c) && Nat.leb (code_unit c) 122.

(** [a-zA-Z] *)
Definition is_letter (c : ascii) : bool := is_lower c || is_upper c.

(** The white space and line terminators below 256 that
    [String.prototype.trim] removes: tab, line feed, vertical tab, form
    feed, carriage return, space and the no-break space U+00A0. (The
    others, U+1680, U+2000 to U+200A, U+2028, U+2029, U+202F, U+205F,
    U+3000 and U+FEFF, are above 255.) *)
Definition is_space (c : ascii) : bool :=
  (Nat.leb 9 (code_unit c) && Nat.leb (code_unit c) 13)
  || Nat.eqb (code_unit c) 32
  || Nat.eqb (code_unit c) 160.

Fixpoint all_chars (p : ascii -> bool) (s : string) : bool :=
  match s with
  | EmptyString => true
  | String c s' => p c && all_chars p s'
  end.

Definition is_empty (s : string) : bool :=
  match s with EmptyString => true | _ => false end.

(** [/^[A-Z]+$/.test(s)] *)
Definition test_upper_plus (s : string) : bool :=
  negb (is_empty s) && all_chars is_upper s.

(** [/^[a-zA-Z]+$/.test(s)] *)
Definition test_letter_plus (s : string) : bool :=
  negb (is_empty s) && all_chars is_letter s.

Fixpoint trimStart (s : string) : string :=
  match s with
  | EmptyString => EmptyString
  | String c s' => if is_space c then trimStart s' else s
  end.

Fixpoint trimEnd (s : string) : string :=
  match s with
  | EmptyString => EmptyString
  | String c s' =>
      match trimEnd s' with
      | EmptyString => if is_space c then EmptyString else String c EmptyString
      | t => String c t
      end
  end.

Definition trim (s : string) : string := trimEnd (trimStart s).

(** The code units whose upper case is the code unit 32 below: [a-z], and
    in the Latin-1 supplement U+00E0 to U+00F6 and U+00F8 to U+00FE (U+00F7
    is the division sign). *)
Definition has_upper (c : ascii) : bool :=
  is_lower c
  || (Nat.leb 224 (code_unit c) && Nat.leb (code_unit c) 246)
  || (Nat.leb 248 (code_unit c) && Nat.leb (code_unit c) 254).

(** Three code units below 256 have an upper case that is not one code
    unit below 256: U+00B5 (micro sign, to U+039C), U+00DF (sharp s, to the
    two letters SS) and U+00FF (y with diaeresis, to U+0178). [upper_char]
    leaves them as they are; [upper_fits] is the strings without them, on
    which [toUpperCase] below is [String.prototype.toUpperCase]. *)
Definition upper_char (c : ascii) : ascii :=
  if has_upper c then ascii_of_nat (code_unit c - 32) else c.

Definition upper_fits_char (c : ascii) : bool :=
  negb (Nat.eqb (code_unit c) 181 || Nat.eqb (code_unit c) 223
        || Nat.eqb (code_unit c) 255).

Fixpoint toUpperCase (s : string) : string :=
  match s with
  | EmptyString => EmptyString
  | String c s' => String (upper_char c) (toUpperCase s')
  end.

Definition upper_fits (s : string) : bool := all_chars upper_fits_char s.

(** Empty, or starting with a character that [trim] keeps. *)
Definition starts_clean (s : string) : Prop :=
  match s with
  | EmptyString => True
  | String c _ => is_space c = false
  end.

(** [s.startsWith(sub)] *)
Definition startsWith (sub s : string) : bool := String.prefix sub s.

(** [s.includes(sub)]: [sub] starts at some position of [s]. *)
Fixpoint includes (sub s : string) : bool :=
  String.prefix sub s
  || match s with
     | EmptyString => false
     | String _ s' => includes sub s'
     end.

End JsString.

(** ** config.js *)

Module Config.
Definition MAX_GUESSES : nat := 6.
Definition WORD_LENGTH : nat := 5.
Definition DUEL_MAX_PLAYERS : nat := 2.
Definition BATTLE_ROYALE_MAX_PLAYERS : nat := 8.
(** [MAX_ROOM_AGE_HOURS] is [parseInt(process.env.MAX_ROOM_AGE_HOURS) || 24]:
    the sweep takes the configured value as an argument, and this is its
    value when the variable is not set. *)
Definition DEFAULT_MAX_ROOM_AGE_HOURS : Z := 24.
End Config.

(** ** Data model *)

Inductive Mode := Duel | BattleRoyale.
Inductive Status := Waiting | Playing | Finished.

#[global] Instance Mode_eq_dec : EqDecision Mode.
Proof. solve_decision. Defined.
#[global] Instance Status_eq_dec : EqDecision Status.
Proof. solve_decision. Defined.

(** [{ word, attempt, timestamp }]; the older server stores no timestamp. *)
Record Guess := mkGuess {
  word : string;
  attempt : Z;
  timestamp : option Z
}.

Record Player := mkPlayer {
  player_id : string;
  username : string;
  score : Z;
  eliminated : bool;
  guesses : list Guess;
  won : bool;
  joinedAt : Z
}.

Record Settings := mkSettings {
  allowCustomWords : bool;
  maxGuesses : nat;
  wordLength : nat
}.

Record Room := mkRoom {
  code : string;
  hostId : string;
  players : list Player;
  solutionWord : string;
  status : Status;
  mode : Mode;
  maxPlayers : nat;
  gameStartTime : option Z;
  roundNumber : Z;
  createdAt : Z;
  lastActivity : Z;
  settings : Settings
}.

(** Field assignments [room.f = v] and [player.f = v]. *)

Definition set_players (v : list Player) (r : Room) : Room :=
  mkRoom (code r) (hostId r) v (solutionWord r) (status r) (mode r)
         (maxPlayers r) (gameStartTime r) (roundNumber r) (createdAt r)
         (lastActivity r) (settings r).

Definition set_hostId (v : string) (r : Room) : Room :=
  mkRoom (code r) v (players r) (solutionWord r) (status r) (mode r)
         (maxPlayers r) (gameStartTime r) (roundNumber r) (createdAt r)
         (lastActivity r) (settings r).

Definition set_solutionWord (v : string) (r : Room) : Room :=
  mkRoom (code r) (hostId r) (players r) v (status r) (mode r)
         (maxPlayers r) (gameStartTime r) (roundNumber r) (createdAt r)
         (lastActivity r) (settings r).

Definition set_status (v : Status) (r : Room) : Room :=
  mkRoom (code r) (hostId r) (players r) (solutionWord r) v (mode r)
         (maxPlayers r) (gameStartTime r) (roundNumber r) (createdAt r)
         (lastActivity r) (settings r).

Definition set_gameStartTime (v : option Z) (r : Room) : Room :=
  mkRoom (code r) (hostId r) (players r) (solutionWord r) (status r) (mode r)
         (maxPlayers r) v (roundNumber r) (createdAt r)
         (lastActivity r) (settings r).

Definition set_roundNumber (v : Z) (r : Room) : Room :=
  mkRoom (code r) (hostId r) (players r) (solutionWord r) (status r) (mode r)
         (maxPlayers r) (gameStartTime r) v (createdAt r)
         (lastActivity r) (settings r).

Definition set_lastActivity (v : Z) (r : Room) : Room :=
  mkRoom (code r) (hostId r) (players r) (solutionWord r) (status r) (mode r)
         (maxPlayers r) (gameStartTime r) (roundNumber r) (createdAt r)
         v (settings r).

Definition set_score (v : Z) (p : Player) : Player :=
  mkPlayer (player_id p) (username p) v (eliminated p) (guesses p) (won p)
           (joinedAt p).

Definition set_eliminated (v : bool) (p : Player) : Player :=
  mkPlayer (player_id p) (username p) (score p) v (guesses p) (won p)
           (joinedAt p).

Definition set_guesses (v : list Guess) (p : Player) : Player :=
  mkPlayer (player_id p) (username p) (score p) (eliminated p) v (won p)
           (joinedAt p).

Definition set_won (v : bool) (p : Player) : Player :=
  mkPlayer (player_id p) (username p) (score p) (eliminated p) (guesses p) v
           (joinedAt p).

(** The table of rooms, [this.rooms = new Map()]. *)
Abbreviation Store := (gmap string Room).

(** The exceptions the room manager throws, by their messages. *)
Inductive Error :=
  | RoomNotFound                      (* 'Room not found' *)
  | GameAlreadyInProgress             (* 'Game already in progress' *)
  | RoomFull (max : nat)              (* 'Room is full (${max} players max)' *)
  | UsernameTaken                     (* 'Username already taken in this room' *)
  | InsufficientPlayers               (* 'Need at least 2 players to start' *)
  | PlayerNotFoundOrEliminated        (* 'Player not found or already eliminated' *)
  | InvalidGuessFormat.               (* 'Guess must be exactly 5 letters' *)

(** Outcome of a call that may throw: the value or the exception, and in
    both cases the table of rooms as the call leaves it. *)
Inductive Result (A : Type) :=
  | Ok (s : Store) (a : A)
  | Throw (s : Store) (e : Error).
Arguments Ok {A} s a.
Arguments Throw {A} s e.

Definition store_of {A} (r : Result A) : Store :=
  match r with Ok s _ => s | Throw s _ => s end.

Definition is_ok {A} (r : Result A) : bool :=
  match r with Ok _ _ => true | Throw _ _ => false end.

(** [players.find(p => p.username === u)] with the index it was found at
    ([findIndex]); [None] is [undefined] / [-1]. *)
Definition find_player (u : string) (ps : list Player) : option (nat * Player) :=
  list_find (λ p, username p = u) ps.

(** [players.find(p => p.username !== u)] *)
Definition find_other (u : string) (ps : list Player) : option (nat * Player) :=
  list_find (λ p, username p ≠ u) ps.

(** [players.filter(p => !p.eliminated)] *)
Definition activePlayers (ps : list Player) : list Player :=
  filter (λ p, eliminated p = false) ps.

(** ** utils/roomManager.js: class RoomManager *)

Module RoomManager.

Definition newPlayer (now : Z) (u : string) : Player :=
  mkPlayer u u 0 false [] false now.

(** [this.rooms.get(code)] is the lookup [s !! code]; [roomExists]
    followed by [getRoom], as the handlers do, is one lookup. *)

Definition deleteRoom (c : string) (s : Store) : Store := delete c s.

(** [createRoom]; [c] is the code [generateRoomCode] returned. *)
Definition createRoom (now : Z) (c : string) (u : string) (m : Mode)
    (s : Store) : Store * Room :=
  let room :=
    mkRoom c u [newPlayer now u] "" Waiting m
           (match m with
            | Duel => Config.DUEL_MAX_PLAYERS
            | BattleRoyale => Config.BATTLE_ROYALE_MAX_PLAYERS
            end)
           None 1 now now
           (mkSettings true Config.MAX_GUESSES Config.WORD_LENGTH) in
  (<[c := room]> s, room).

Definition addPlayerToRoom (now : Z) (c u : string) (s : Store)
    : Result Room :=
  match s !! c with
  | None => Throw s RoomNotFound
  | Some room =>
      if negb (bool_decide (status room = Waiting)) then
        Throw s GameAlreadyInProgress
      else if Nat.leb (maxPlayers room) (length (players room)) then
        Throw s (RoomFull (maxPlayers room))
      else if bool_decide (Exists (λ p, username p = u) (players room)) then
        Throw s UsernameTaken
      else
        let room1 := set_players (players room ++ [newPlayer now u]) room in
        let room2 := set_lastActivity now room1 in
        Ok (<[c := room2]> s) room2
  end.

(** The room object as [removePlayerFromRoom] leaves it once it has
    spliced out the player at [i], before the table is touched. *)
Definition spliced (now : Z) (i : nat) (room : Room) : Room :=
  set_lastActivity now (set_players (delete i (players room)) room).

Definition removePlayerFromRoom (now : Z) (c u : string) (s : Store)
    : Store * bool :=
  match s !! c with
  | None => (s, false)
  | Some room =>
      match find_player u (players room) with
      | None => (s, false)
      | Some (playerIndex, _) =>
          let room1 := spliced now playerIndex room in
          match players room1 with
          | [] => (deleteRoom c (<[c := room1]> s), true)
          | p0 :: _ =>
              let room2 :=
                if bool_decide (hostId room1 = u)
                then set_hostId (username p0) room1
                else room1 in
              (<[c := room2]> s, true)
          end
      end
  end.

Definition fallbackWords : list string :=
  ["HELLO"; "WORLD"; "GAMES"; "PLAYS"; "SMART"].

(** [fallbackWords[Math.floor(Math.random() * fallbackWords.length)]];
    [rnd] stands for the random draw, reduced to an index of the list. *)
Definition getRandomWord (rnd : nat) : string :=
  nth (rnd mod length fallbackWords) fallbackWords "HELLO".

(** [customWord && customWord.trim()] *)
Definition customWordGiven (customWord : option string) : bool :=
  match customWord with
  | Some w => negb (JsString.is_empty w) && negb (JsString.is_empty (JsString.trim w))
  | None => false
  end.

Definition resetPlayer (p : Player) : Player :=
  set_score 0 (set_won false (set_guesses [] (set_eliminated false p))).

Definition startGame (rnd : nat) (now : Z) (c : string)
    (customWord : option string) (s : Store) : Result Room :=
  match s !! c with
  | None => Throw s RoomNotFound
  | Some room =>
      if negb (bool_decide (status room = Waiting)) then
        Throw s GameAlreadyInProgress
      else if Nat.ltb (length (players room)) 2 then
        Throw s InsufficientPlayers
      else
        let w :=
          if customWordGiven customWord
          then JsString.toUpperCase (JsString.trim (default "" customWord))
          else getRandomWord rnd in
        let room1 := set_solutionWord w room in
        let room2 := set_players (resetPlayer <$> players room1) room1 in
        let room3 := set_status Playing room2 in
        let room4 := set_gameStartTime (Some now) room3 in
        let room5 := set_roundNumber 1 room4 in
        let room6 := set_lastActivity now room5 in
        Ok (<[c := room6]> s) room6
  end.

(** What [submitGuess] returns: exactly one of the flags [won],
    [eliminated], [continue] is present, with the player and the room. *)
Inductive Outcome := Won | Eliminated | Continue.

Record SubmitResult := mkSubmitResult {
  outcome : Outcome;
  res_player : Player;
  res_room : Room
}.

Definition res_won (r : SubmitResult) : bool :=
  match outcome r with Won => true | _ => false end.
Definition res_eliminated (r : SubmitResult) : bool :=
  match outcome r with Eliminated => true | _ => false end.

(** [guess.length !== WORD_LENGTH || !/^[A-Z]+$/.test(guess)] *)
Definition badGuess (guess : string) : bool :=
  negb (Nat.eqb (String.length guess) Config.WORD_LENGTH)
  || negb (JsString.test_upper_plus guess).

Definition submitGuess (now : Z) (c u guess : string) (attemptNumber : Z)
    (s : Store) : Result SubmitResult :=
  match s !! c with
  | None => Throw s RoomNotFound
  | Some room =>
      match find_player u (players room) with
      | None => Throw s PlayerNotFoundOrEliminated
      | Some (i, player) =>
          if eliminated player then Throw s PlayerNotFoundOrEliminated
          else if badGuess guess then Throw s InvalidGuessFormat
          else
            (* player.guesses.push({ word, attempt, timestamp }) *)
            let player1 :=
              set_guesses
                (guesses player ++ [mkGuess guess attemptNumber (Some now)])
                player in
            if bool_decide (guess = solutionWord room) then
              let player2 := set_score attemptNumber (set_won true player1) in
              let room1 := set_players (<[i := player2]> (players room)) room in
              Ok (<[c := room1]> s) (mkSubmitResult Won player2 room1)
            else if Nat.leb Config.MAX_GUESSES (length (guesses player1)) then
              let player2 := set_eliminated true player1 in
              let room1 := set_players (<[i := player2]> (players room)) room in
              Ok (<[c := room1]> s) (mkSubmitResult Eliminated player2 room1)
            else
              let room1 := set_players (<[i := player1]> (players room)) room in
              Ok (<[c := room1]> s) (mkSubmitResult Continue player1 room1)
      end
  end.

(** [roomAge > maxAge] for [maxAge = MAX_ROOM_AGE_HOURS * 60 * 60 * 1000] *)
Definition expired (maxAgeHours now : Z) (room : Room) : bool :=
  Z.ltb (maxAgeHours * 60 * 60 * 1000) (now - createdAt room).

(** [for (const [code, room] of this.rooms.entries())
      if (roomAge > maxAge) this.deleteRoom(code)]:
    every entry of the table is visited once, and the expired ones are
    deleted from the table as the loop goes. *)
Definition cleanupLoop (maxAgeHours now : Z)
    (entries : list (string * Room)) (s : Store) : Store :=
  foldl (λ acc e, if expired maxAgeHours now e.2
                  then deleteRoom e.1 acc else acc) s entries.

Definition cleanupOldRooms (maxAgeHours now : Z) (s : Store) : Store :=
  cleanupLoop maxAgeHours now (map_to_list s) s.

(** [generateRoomCode]: [draw k] is the code that the [k]-th evaluation of
    [Math.random().toString(36).substring(2, 8).toUpperCase()] gives. The
    loop draws, counts the attempt, throws when the count exceeds
    [maxAttempts], and goes on while the code is taken; [None] is the
    exception 'Unable to generate unique room code'. The count bounds the
    loop: [S maxAttempts] iterations are enough fuel. *)
Definition maxAttempts : nat := 100.

Fixpoint generateLoop (draw : nat → string) (s : Store)
    (fuel attempts : nat) : option string :=
  match fuel with
  | 0 => None
  | S fuel' =>
      let c := draw attempts in
      let attempts' := S attempts in
      if Nat.ltb maxAttempts attempts' then None
      else if bool_decide (is_Some (s !! c))
      then generateLoop draw s fuel' attempts'
      else Some c
  end.

Definition generateRoomCode (draw : nat → string) (s : Store)
    : option string :=
  generateLoop draw s (S maxAttempts) 0.

(** [createRoom] as a whole: the code is generated, then the room is built
    and stored under it. *)
Definition createRoomDrawn (draw : nat → string) (now : Z) (u : string)
    (m : Mode) (s : Store) : option (Store * Room) :=
  c ← generateRoomCode draw s;
  Some (createRoom now c u m s).

(** The object [getRoomStats] returns. *)
Record RoomStats := mkRoomStats {
  stats_code : string;
  stats_playerCount : nat;
  stats_maxPlayers : nat;
  stats_status : Status;
  stats_mode : Mode;
  stats_createdAt : Z;
  stats_lastActivity : Z;
  stats_gameStartTime : option Z;
  stats_activePlayers : nat;
  stats_eliminatedPlayers : nat
}.

Definition getRoomStats (c : string) (s : Store) : option RoomStats :=
  room ← s !! c;
  Some (mkRoomStats (code room) (length (players room)) (maxPlayers room)
          (status room) (mode room) (createdAt room) (lastActivity room)
          (gameStartTime room)
          (length (filter (λ p, eliminated p = false) (players room)))
          (length (filter (λ p, eliminated p = true) (players room)))).

(** [Array.from(this.rooms.values())]. A JavaScript [Map] lists its values
    in insertion order, which the table does not record: the list is
    modelled up to its order, and only counted. *)
Definition getAllRooms (s : Store) : list Room := (map_to_list s).*2.

Definition getTotalRoomCount (s : Store) : nat := size s.

Definition getActiveRoomCount (s : Store) : nat :=
  length (filter (λ room, 0 < length (players room)) (getAllRooms s)).

End RoomManager.

(** ** utils/roomManager.js: class WordValidator

    [this.words] is the dictionary read from [validWords.json] when the
    module is loaded; it is the argument [words]. *)

Module WordValidator.

Definition isValidWord (words : list string) (w : string) : bool :=
  if JsString.is_empty w then false
  else
    let normalizedWord := JsString.toUpperCase (JsString.trim w) in
    if negb (Nat.eqb (String.length normalizedWord) Config.WORD_LENGTH)
    then false
    else bool_decide (normalizedWord ∈ words).

Definition isValidWordFormat (w : string) : bool :=
  if JsString.is_empty w then false
  else
    let normalizedWord := JsString.trim w in
    if negb (Nat.eqb (String.length normalizedWord) Config.WORD_LENGTH)
    then false
    else if negb (JsString.test_letter_plus normalizedWord) then false
    else true.

(** [getSuggestions(partialWord, maxSuggestions)] *)
Definition getSuggestions (words : list string) (partialWord : string)
    (maxSuggestions : nat) : list string :=
  if JsString.is_empty partialWord then []
  else
    let normalizedPartial := JsString.toUpperCase (JsString.trim partialWord) in
    if Nat.eqb (String.length normalizedPartial) 0 then []
    else
      let suggestions :=
        take maxSuggestions
          (filter (λ w, JsString.startsWith normalizedPartial w = true) words) in
      if Nat.ltb (length suggestions) maxSuggestions then
        let containingWords :=
          take (maxSuggestions - length suggestions)
            (filter (λ w, JsString.includes normalizedPartial w = true
                          ∧ w ∉ suggestions) words) in
        suggestions ++ containingWords
      else suggestions.

Definition commonWords : list string :=
  ["HELLO"; "WORLD"; "GAMES"; "PLAYS"; "SMART"; "BRAIN"; "QUICK"; "FAST";
   "SLOW"; "EASY"; "HAPPY"; "SMILE"; "DANCE"; "MUSIC"; "BOOKS"; "STARS";
   "OCEAN"; "HOME"; "FOOD"; "WATER"].

Definition isCommonWord (w : string) : bool :=
  bool_decide (JsString.toUpperCase (JsString.trim w) ∈ commonWords).

Definition uncommonCombos : list string := ["Q"; "X"; "Z"; "J"; "V"; "K"].

(** [letterCounts[letter] = (letterCounts[letter] || 0) + 1] for every
    letter of the word; the keys of the object are the one-letter strings. *)
Fixpoint letterCounts (w : string) (counts : gmap string nat)
    : gmap string nat :=
  match w with
  | EmptyString => counts
  | String ch w' =>
      let letter := String ch EmptyString in
      letterCounts w' (<[letter := default 0 (counts !! letter) + 1]> counts)
  end.

(** [getWordDifficulty]; [None] is the answer ['invalid']. *)
Definition getWordDifficulty (words : list string) (w : string)
    : option nat :=
  let normalizedWord := JsString.toUpperCase (JsString.trim w) in
  if negb (isValidWord words normalizedWord) then None
  else
    let difficulty := 1 in
    let hasUncommonLetters :=
      existsb (λ letter, JsString.includes letter normalizedWord)
              uncommonCombos in
    let difficulty :=
      if hasUncommonLetters then difficulty + 1 else difficulty in
    let hasRepeatedLetters :=
      existsb (λ kv, Nat.ltb 1 kv.2)
              (map_to_list (letterCounts normalizedWord ∅)) in
    let difficulty :=
      if hasRepeatedLetters then difficulty + 1 else difficulty in
    let difficulty :=
      if isCommonWord normalizedWord then Nat.max 1 (difficulty - 1)
      else difficulty in
    Some (Nat.min 3 difficulty).

Definition getWordsByDifficulty (words : list string) (difficulty : nat)
    : list string :=
  filter (λ w, getWordDifficulty words w = Some difficulty) words.

End WordValidator.

(** ** Events sent to the clients

    [GameError] goes to the requesting socket only ([socket.emit]); the
    others go to every socket of the room ([io.to(roomCode).emit]). The flags of [GuessSubmitted] are [true] when
    the field of the payload is present and [true]. *)

Inductive Event :=
  | GameError (message : string)
  | GameStarted (solution : string) (st : Status) (m : Mode)
      (ps : list Player) (cfg : Settings)
  | GameOver (winner : option string) (solution : string) (st : Status)
      (m : Mode) (ps : list Player)
  | PlayerEliminated (eliminatedPlayer : string) (remainingPlayers : nat)
      (ps : list Player)
  | GuessSubmitted (user guess : string) (attemptNumber : nat)
      (ps : list Player) (wonFlag eliminatedFlag : bool).

Definition is_game_over (e : Event) : bool :=
  match e with GameOver _ _ _ _ _ => true | _ => false end.

(** [room.status = 'finished'] followed by the [game-over] broadcast. *)
Definition finish (c : string) (winner : option string) (room : Room)
    (s : Store) : Store * list Event :=
  let room1 := set_status Finished room in
  (<[c := room1]> s,
   [GameOver winner (solutionWord room1) (status room1) (mode room1)
             (players room1)]).

(** The events of the room channel: [room-error] goes to the requesting
    socket only, [room-updated] to every socket of the room. *)
Inductive RoomEvent :=
  | RoomError (message : string)
  | RoomUpdated (room : Room).

(** ** utils/logger.js *)

Module Logger.

(** The second argument of [logError(error, req = null)] at a call: left
    out, an Express request (the HTTP middleware), or a plain object (the
    socket handlers pass [{ roomCode, ... }]). *)
Inductive Req := NoReq | ExpressRequest | PlainObject.

(** How a call or a block completes: normally, or by a [TypeError]. *)
Inductive Completion := Normal | TypeError.

(** [logError]: [if (req)] it reads [req.method], [req.url], [req.ip] and
    calls [req.get('User-Agent')]. A plain object is truthy and has no
    [get]: the call of [undefined] throws
    [TypeError: req.get is not a function], before anything is logged. *)
Definition logError (req : Req) : Completion :=
  match req with
  | NoReq => Normal
  | ExpressRequest => Normal
  | PlainObject => TypeError
  end.

End Logger.

(** ** socket/gameHandler.js: class GameHandler

    Every handler is [try { ... } catch (error) { ... }]. The [try] block
    is modelled as a function to [Result]: the events it sends when it
    runs to its end or to a [return], or the exception that ends it (in
    these handlers no event is sent before a call that can throw). The
    [catch] block follows; the call of a handler gives the table, the
    events sent, and how the call completes. *)

Module GameHandler.

(** [catch (error) { logger.logError(error, { roomCode, ... });
    socket.emit('game-error', { message }); }], entered with the table
    [s]. The [TypeError] of [logError] ends the block before the [emit]:
    no event is sent, and the [TypeError] leaves the handler. *)
Definition catchBlock (message : string) (s : Store)
    : Store * list Event * Logger.Completion :=
  match Logger.logError Logger.PlainObject with
  | Logger.Normal => (s, [GameError message], Logger.Normal)
  | Logger.TypeError => (s, [], Logger.TypeError)
  end.

(** The [try] block of [handleStartGame]. *)
Definition tryStartGame (words : list string) (rnd : nat) (now : Z)
    (roomCode : string) (customWord : option string) (s : Store)
    : Result (list Event) :=
  match s !! roomCode with
  | None => Ok s [GameError "Room not found"]
  | Some room =>
      if bool_decide (mode room = Duel) && Nat.ltb (length (players room)) 2
      then Ok s [GameError "Duel mode requires at least 2 players"]
      else if bool_decide (mode room = BattleRoyale)
              && Nat.ltb (length (players room)) 2
      then Ok s [GameError "Battle Royale mode requires at least 2 players"]
      else if RoomManager.customWordGiven customWord
              && negb (WordValidator.isValidWord words
                         (JsString.toUpperCase
                            (JsString.trim (default "" customWord))))
      then Ok s [GameError "Invalid word. Please choose a valid 5-letter word."]
      else
        match RoomManager.startGame rnd now roomCode customWord s with
        | Throw s1 e => Throw s1 e
        | Ok s1 updatedRoom =>
            Ok s1 [GameStarted (solutionWord updatedRoom) (status updatedRoom)
                     (mode updatedRoom) (players updatedRoom)
                     (settings updatedRoom)]
        end
  end.

(** The call [handleStartGame(socket, { roomCode, customWord })]. *)
Definition callStartGame (words : list string) (rnd : nat) (now : Z)
    (roomCode : string) (customWord : option string) (s : Store)
    : Store * list Event * Logger.Completion :=
  match tryStartGame words rnd now roomCode customWord s with
  | Ok s1 events => (s1, events, Logger.Normal)
  | Throw s1 _ => catchBlock "Failed to start game" s1
  end.

(** The table [handleStartGame] leaves and the events it sends. *)
Definition handleStartGame (words : list string) (rnd : nat) (now : Z)
    (roomCode : string) (customWord : option string) (s : Store)
    : Store * list Event :=
  (callStartGame words rnd now roomCode customWord s).1.

(** The branch of [handleSubmitGuess] taken once [submitGuess] has
    returned [result]; [room] is the room object the handler holds, which
    is the one [submitGuess] has just mutated. *)
Definition afterGuess (roomCode u : string)
    (result : RoomManager.SubmitResult) (s : Store) : Store * list Event :=
  let room := RoomManager.res_room result in
  match RoomManager.outcome result with
  | RoomManager.Won =>
      match mode room with
      | Duel => finish roomCode (Some u) room s
      | BattleRoyale =>
          let active := activePlayers (players room) in
          if Nat.eqb (length active) 1
          then finish roomCode (username <$> head active) room s
          else (s, [PlayerEliminated u (length active) (players room)])
      end
  | RoomManager.Eliminated =>
      match mode room with
      | Duel =>
          match find_other u (players room) with
          | Some (_, otherPlayer) =>
              if Nat.leb Config.MAX_GUESSES (length (guesses otherPlayer))
              then finish roomCode None room s
              else (s, [])
          | None => (s, [])
          end
      | BattleRoyale =>
          let active := activePlayers (players room) in
          if Nat.eqb (length active) 1
          then finish roomCode (username <$> head active) room s
          else (s, [PlayerEliminated u (length active) (players room)])
      end
  | RoomManager.Continue => (s, [])
  end.

(** The [try] block of [handleSubmitGuess]. *)
Definition trySubmitGuess (now : Z) (roomCode u guess : string)
    (attemptNumber : Z) (s : Store) : Result (list Event) :=
  match s !! roomCode with
  | None => Ok s [GameError "Room not found"]
  | Some room =>
      match find_player u (players room) with
      | None => Ok s []
      | Some (_, player) =>
          if eliminated player then Ok s []
          else if negb (WordValidator.isValidWordFormat guess)
          then Ok s [GameError "Invalid guess format"]
          else
            match RoomManager.submitGuess now roomCode u guess attemptNumber s with
            | Throw s1 e => Throw s1 e
            | Ok s1 result =>
                let '(s2, evs) := afterGuess roomCode u result s1 in
                Ok s2
                  (evs ++
                   [GuessSubmitted u guess
                      (length (guesses (RoomManager.res_player result)))
                      (players (RoomManager.res_room result))
                      (RoomManager.res_won result)
                      (RoomManager.res_eliminated result)])
            end
      end
  end.

(** The call [handleSubmitGuess(socket, { roomCode, username, guess,
    boardState, attemptNumber })]. *)
Definition callSubmitGuess (now : Z) (roomCode u guess : string)
    (attemptNumber : Z) (s : Store)
    : Store * list Event * Logger.Completion :=
  match trySubmitGuess now roomCode u guess attemptNumber s with
  | Ok s1 events => (s1, events, Logger.Normal)
  | Throw s1 _ => catchBlock "Failed to submit guess" s1
  end.

(** The table [handleSubmitGuess] leaves and the events it sends. *)
Definition handleSubmitGuess (now : Z) (roomCode u guess : string)
    (attemptNumber : Z) (s : Store) : Store * list Event :=
  (callSubmitGuess now roomCode u guess attemptNumber s).1.

(** [handleJoinRoom]: the socket subscribes to the channel of the room
    ([socket.join], not part of the table of rooms). No statement of its
    [try] block throws, nor of the one of [handleLeaveRoom]: their [catch]
    blocks are not entered. *)
Definition handleJoinRoom (now : Z) (u roomCode : string) (s : Store)
    : Store * list RoomEvent :=
  match s !! roomCode with
  | None => (s, [RoomError "Room not found"])
  | Some room =>
      if negb (bool_decide (status room = Waiting))
      then (s, [RoomError "Game already in progress"])
      else
        let room1 := set_lastActivity now room in
        (<[roomCode := room1]> s, [RoomUpdated room1])
  end.

Definition handleLeaveRoom (now : Z) (roomCode u : string) (s : Store)
    : Store * list RoomEvent :=
  match s !! roomCode with
  | None => (s, [])
  | Some _ =>
      let '(s1, removed) := RoomManager.removePlayerFromRoom now roomCode u s in
      if removed then
        match s1 !! roomCode with
        | Some room => (s1, [RoomUpdated room])
        | None => (s1, [])
        end
      else (s1, [])
  end.

End GameHandler.

(** ** server/index.js: the [submit-guess] handler of the older server

    It works on its own table of rooms and does by itself what
    [GameHandler.handleSubmitGuess] splits between the handler and
    [RoomManager.submitGuess]. *)

Module Legacy.

(** [winner.won = true] for [winner = activePlayers[0]]: the first player
    of the room that is not eliminated. *)
Definition markWinner (ps : list Player) : list Player :=
  match list_find (λ p, eliminated p = false) ps with
  | Some (j, winner) => <[j := set_won true winner]> ps
  | None => ps
  end.

(** [player.eliminated = true] and the check for the last player
    standing, shared by the two Battle Royale branches. *)
Definition eliminate (roomCode u : string) (i : nat) (player : Player)
    (room : Room) (s : Store) : Store * list Event :=
  let ps1 := <[i := set_eliminated true player]> (players room) in
  let active := activePlayers ps1 in
  if Nat.eqb (length active) 1
  then finish roomCode (username <$> head active)
         (set_players (markWinner ps1) room) s
  else (<[roomCode := set_players ps1 room]> s,
        [PlayerEliminated u (length active) ps1]).

Definition submitGuess (roomCode u guess : string) (attemptNumber : Z)
    (s : Store) : Store * list Event :=
  match s !! roomCode with
  | None => (s, [])
  | Some room =>
      match find_player u (players room) with
      | None => (s, [])
      | Some (i, player) =>
          if eliminated player then (s, [])
          else if negb (RoomManager.badGuess guess) then
            let player1 :=
              set_guesses (guesses player ++ [mkGuess guess attemptNumber None])
                          player in
            let '(s1, evs) :=
              if bool_decide (guess = solutionWord room) then
                let player2 := set_score attemptNumber (set_won true player1) in
                let room1 := set_players (<[i := player2]> (players room)) room in
                match mode room with
                | Duel => finish roomCode (Some u) room1 s
                | BattleRoyale => eliminate roomCode u i player2 room1 s
                end
              else
                let room1 := set_players (<[i := player1]> (players room)) room in
                if Nat.leb 6 (length (guesses player1)) then
                  match mode room with
                  | Duel =>
                      match find_other u (players room1) with
                      | Some (_, otherPlayer) =>
                          if Nat.leb 6 (length (guesses otherPlayer))
                          then finish roomCode None room1 s
                          else (<[roomCode := room1]> s, [])
                      | None => (<[roomCode := room1]> s, [])
                      end
                  | BattleRoyale => eliminate roomCode u i player1 room1 s
                  end
                else (<[roomCode := room1]> s, []) in
            (s1,
             evs ++
             [GuessSubmitted u guess (length (guesses player1))
                (default [] (players <$> s1 !! roomCode)) false false])
          else (s, [])
      end
  end.

End Legacy.

(** ** routes/game.js: the counters of [GET /rooms] *)

Module Routes.

Record RoomCounts := mkRoomCounts {
  total : nat;
  active : nat;
  waiting : nat;
  playing : nat;
  finished : nat
}.

Definition roomCounts (s : Store) : RoomCounts :=
  let rooms := RoomManager.getAllRooms s in
  mkRoomCounts
    (RoomManager.getTotalRoomCount s)
    (RoomManager.getActiveRoomCount s)
    (length (filter (λ r, status r = Waiting) rooms))
    (length (filter (λ r, status r = Playing) rooms))
    (length (filter (λ r, status r = Finished) rooms)).

End Routes.

(** ** Well-formed rooms

    What the operations keep true of every room of the table: it is stored
    under its own code, it has a player, user names are unique, the room is
    not over capacity, the host is one of the players, and a player who is
    neither eliminated nor a winner has attempts left. *)

Definition has_attempts_left (p : Player) : Prop :=
  eliminated p = false → won p = false →
  length (guesses p) < Config.MAX_GUESSES.

Definition room_ok (r : Room) : Prop :=
  players r ≠ [] ∧
  NoDup (username <$> players r) ∧
  length (players r) ≤ maxPlayers r ∧
  hostId r ∈ username <$> players r ∧
  Forall has_attempts_left (players r).

Definition store_ok (s : Store) : Prop :=
  map_Forall (λ c r, code r = c ∧ room_ok r) s.

#[global] Instance has_attempts_left_dec (p : Player) :
  Decision (has_attempts_left p).
Proof. unfold has_attempts_left. apply _. Defined.

#[global] Instance room_ok_dec (r : Room) : Decision (room_ok r).
Proof. unfold room_ok. apply _. Defined.

#[global] Instance store_ok_dec (s : Store) : Decision (store_ok s).
Proof. unfold store_ok. apply _. Defined.

(** ** Sample rooms

    A table with one room per situation the properties below are
    exercised on. Every room has host [A]; a started game has the solution
    [HELLO]. *)

Module Examples.

Definition dictionary : list string :=
  ["HELLO"; "WORLD"; "GAMES"; "PLAYS"; "SMART"; "BRAIN"; "QUICK"].

Definition fresh (u : string) : Player := RoomManager.newPlayer 1000 u.

(** A player who has made [k] guesses, all of them [WORLD]. *)
Definition tried (k : nat) (u : string) : Player :=
  set_guesses (replicate k (mkGuess "WORLD" 1 (Some 1500%Z))) (fresh u).

Definition cap (m : Mode) : nat :=
  match m with
  | Duel => Config.DUEL_MAX_PLAYERS
  | BattleRoyale => Config.BATTLE_ROYALE_MAX_PLAYERS
  end.

Definition lobby (c : string) (m : Mode) (ps : list Player) : Room :=
  mkRoom c "A" ps "" Waiting m (cap m) None 1 1000 1001
         (mkSettings true Config.MAX_GUESSES Config.WORD_LENGTH).

Definition game (c : string) (m : Mode) (st : Status) (ps : list Player)
    : Room :=
  mkRoom c "A" ps "HELLO" st m (cap m) (Some 1002%Z) 1 1000 1002
         (mkSettings true Config.MAX_GUESSES Config.WORD_LENGTH).

Definition winner (u : string) : Player :=
  set_score 1 (set_won true
    (set_guesses [mkGuess "HELLO" 1 (Some 1600%Z)] (fresh u))).

Definition rooms : list Room :=
  [ lobby "LOBBY2" Duel [fresh "A"; fresh "B"];
    lobby "LOBBY3" BattleRoyale [fresh "A"; fresh "B"; fresh "C"];
    lobby "SOLO01" BattleRoyale [fresh "A"];
    game "DUEL01" Duel Playing [fresh "A"; fresh "B"];
    game "DUEL02" Duel Finished [winner "A"; fresh "B"];
    game "DUEL03" Duel Playing
      [tried 5 "A"; set_eliminated true (tried 6 "B")];
    game "DUEL04" Duel Playing [tried 5 "A"; tried 3 "B"];
    game "ROYAL2" BattleRoyale Playing [fresh "A"; fresh "B"];
    game "ROYAL3" BattleRoyale Playing [fresh "A"; tried 5 "B"; fresh "C"] ].

Definition table : Store := list_to_map ((λ r, (code r, r)) <$> rooms).

(** What a client sees of the players of room [c]: name, [won] and
    [eliminated], in join order. *)
Definition standing (c : string) (s : Store)
    : option (list (string * bool * bool)) :=
  (λ r, (λ p, (username p, won p, eliminated p)) <$> players r) <$> s !! c.

Definition guessesOf (c u : string) (s : Store) : option (list Guess) :=
  room ← s !! c;
  '(_, p) ← find_player u (players room);
  Some (guesses p).

(** A sequence of drawn codes whose first three are taken in [table]. *)
Definition draws (k : nat) : string :=
  nth k ["DUEL01"; "LOBBY2"; "ROYAL3"; "FRESH1"] "FRESH2".

(** A sequence that only ever draws a code of [table]. *)
Definition stuck (k : nat) : string := "DUEL01".

(** A custom word of white space only: a no-break space (U+00A0) and a
    space. *)
Definition blank : string := String (ascii_of_nat 160) " ".

(** A Battle Royale down to two players, one of them at the last attempt. *)
Definition arena : Store :=
  {[ "ROYAL4" := game "ROYAL4" BattleRoyale Playing [tried 5 "A"; fresh "B"] ]}.

End Examples.

(** * Properties *)

(** ** Auxiliary facts *)

Section Lookup.
Implicit Types (ps : list Player) (u : string).

Lemma find_player_Some u ps i p :
  find_player u ps = Some (i, p) →
  ps !! i = Some p ∧ username p = u ∧
  ∀ j q, ps !! j = Some q → j < i → username q ≠ u.
Proof. unfold find_player. intros H. by apply list_find_Some in H. Qed.

Lemma find_player_None u ps :
  find_player u ps = None ↔ ¬ ∃ p, p ∈ ps ∧ username p = u.
Proof.
  unfold find_player. rewrite list_find_None, Forall_forall. split.
  - intros H (p & Hp & Hu). by apply (H p).
  - intros H p Hp Hu. apply H. by exists p.
Qed.

Lemma taken_iff u ps :
  Exists (λ p, username p = u) ps ↔ ∃ p, p ∈ ps ∧ username p = u.
Proof. by rewrite Exists_exists. Qed.
End Lookup.

(** ** Joining and leaving *)

(** C7. [addPlayerToRoom] fails with [RoomNotFound] when no room has the
    code, with [GameAlreadyInProgress] when the room is not waiting, with
    [RoomFull] when the room has [maxPlayers] players or more, and with
    [UsernameTaken] when a player of the room already has the name. The
    checks are made in this order, so that the first condition that holds
    names the error; the call fails exactly when one of the conditions
    holds; and a call that fails leaves the table of rooms as it was. *)
Theorem addPlayerToRoom_failures (now : Z) (c u : string) (s : Store) :
  let r := RoomManager.addPlayerToRoom now c u s in
  (s !! c = None → r = Throw s RoomNotFound) ∧
  (∀ room, s !! c = Some room →
     (status room ≠ Waiting → r = Throw s GameAlreadyInProgress) ∧
     (status room = Waiting → maxPlayers room ≤ length (players room) →
        r = Throw s (RoomFull (maxPlayers room))) ∧
     (status room = Waiting → length (players room) < maxPlayers room →
        (∃ p, p ∈ players room ∧ username p = u) →
        r = Throw s UsernameTaken) ∧
     ((status room ≠ Waiting ∨ maxPlayers room ≤ length (players room) ∨
       ∃ p, p ∈ players room ∧ username p = u) ↔ is_ok r = false)) ∧
  (∀ s' e, r = Throw s' e → s' = s).
Proof.
  unfold RoomManager.addPlayerToRoom. cbv zeta.
  destruct (s !! c) as [room|] eqn:Hc.
  - split; [done|]. split; [|].
    + intros ? [= <-].
      case_bool_decide as Hst; cbn [negb].
      * destruct (Nat.leb_spec (maxPlayers room) (length (players room))) as [Hfull|Hfree].
        { split_and!; try done; try lia. split; [done|]. intros _. right. by left. }
        case_bool_decide as Hdup.
        { split_and!; try done; try lia. split; [done|]. intros _.
          right. right. by apply taken_iff. }
        split_and!; try done; try lia.
        { intros _ _ Hex. by apply taken_iff in Hex. }
        split; [|done]. intros [?|[?|Hex]]; [done|lia|].
        by apply taken_iff in Hex.
      * split_and!; try done. split; [done|]. intros _. by left.
    + intros s' e.
      repeat (case_bool_decide || case_match); cbn [negb] in *;
        repeat case_match; congruence.
  - split_and!; [done|done|]. by intros s' e [= <- _].
Qed.

(** C8. [removePlayerFromRoom] answers [false], and changes nothing, when
    the room or the player does not exist. Otherwise it answers [true],
    removes the first player of that name and touches no other room: if no
    player is left the room is deleted and a lookup of its code finds
    nothing; if some are left they keep their join order, and the host
    becomes the first of them when the player who left was the host. *)
Theorem removePlayerFromRoom_spec (now : Z) (c u : string) (s : Store) :
  let r := RoomManager.removePlayerFromRoom now c u s in
  (s !! c = None → r = (s, false)) ∧
  (∀ room, s !! c = Some room →
     ((¬ ∃ p, p ∈ players room ∧ username p = u) → r = (s, false)) ∧
     (∀ i p, find_player u (players room) = Some (i, p) →
        r.2 = true ∧
        (∀ c', c' ≠ c → r.1 !! c' = s !! c') ∧
        (delete i (players room) = [] → r.1 !! c = None) ∧
        (∀ p0 rest, delete i (players room) = p0 :: rest →
           ∃ room', r.1 !! c = Some room' ∧
             players room' = p0 :: rest ∧
             hostId room' =
               (if decide (hostId room = u) then username p0 else hostId room)))).
Proof.
  unfold RoomManager.removePlayerFromRoom. cbv zeta.
  destruct (s !! c) as [room|] eqn:Hc; [|by split].
  split; [done|]. intros ? [= <-]. split.
  - intros Hno. apply find_player_None in Hno. by rewrite Hno.
  - intros i p Hfind. rewrite Hfind.
    unfold RoomManager.spliced, RoomManager.deleteRoom. cbn [players set_lastActivity set_players hostId].
    destruct (delete i (players room)) as [|p0 rest] eqn:Hdel; cbn [fst snd].
    + split_and!; try done.
      * intros c' Hne. by rewrite lookup_delete_ne, lookup_insert_ne.
      * intros _. by rewrite lookup_delete_eq.
    + split_and!; try done.
      * intros c' Hne. by rewrite lookup_insert_ne.
      * intros p1 rest1 [= <- <-]. rewrite lookup_insert_eq. eexists. split; [done|].
        case_bool_decide; case_decide; done.
Qed.

(** ** Starting a game *)

(** C5. In a waiting room with at least two players [startGame] succeeds:
    the solution word is set (the custom word trimmed and in upper case, or
    a random word), every player has no guesses, is neither eliminated nor
    a winner and has score 0, the status is [Playing], the game starts now
    and the round number is 1. In a room with fewer than two players it
    throws, whatever the mode, and the table of rooms is as before. *)
Theorem startGame_spec (rnd : nat) (now : Z) (c : string)
    (customWord : option string) (s : Store) (room : Room) :
  s !! c = Some room →
  (status room = Waiting → 2 ≤ length (players room) →
     ∃ room', RoomManager.startGame rnd now c customWord s
                = Ok (<[c := room']> s) room' ∧
       solutionWord room' =
         (if RoomManager.customWordGiven customWord
          then JsString.toUpperCase (JsString.trim (default "" customWord))
          else RoomManager.getRandomWord rnd) ∧
       username <$> players room' = username <$> players room ∧
       Forall (λ p, guesses p = [] ∧ eliminated p = false ∧
                    won p = false ∧ score p = 0%Z) (players room') ∧
       status room' = Playing ∧
       gameStartTime room' = Some now ∧
       roundNumber room' = 1%Z) ∧
  (length (players room) < 2 →
     ∃ e, RoomManager.startGame rnd now c customWord s = Throw s e).
Proof.
  intros Hc. unfold RoomManager.startGame. rewrite Hc. split.
  - intros Hst Hlen. rewrite bool_decide_eq_true_2 by done. cbn [negb].
    destruct (Nat.ltb_spec (length (players room)) 2) as [?|_]; [lia|].
    eexists. split; [reflexivity|]. cbn. split_and!; try done.
    + rewrite <- list_fmap_compose. by apply list_fmap_ext.
    + apply Forall_fmap, Forall_true. by intros p.
  - intros Hlen. case_bool_decide; cbn [negb]; [|by eexists].
    destruct (Nat.ltb_spec (length (players room)) 2) as [_|?]; [by eexists|lia].
Qed.

Lemma submitGuess_inv (now : Z) (c u guess : string) (n : Z) (s s' : Store)
    (res : RoomManager.SubmitResult) :
  RoomManager.submitGuess now c u guess n s = Ok s' res →
  ∃ room i p p',
    s !! c = Some room ∧
    find_player u (players room) = Some (i, p) ∧
    eliminated p = false ∧
    RoomManager.badGuess guess = false ∧
    RoomManager.res_player res = p' ∧
    RoomManager.res_room res = set_players (<[i := p']> (players room)) room ∧
    s' = <[c := RoomManager.res_room res]> s ∧
    player_id p' = player_id p ∧ username p' = username p ∧
    joinedAt p' = joinedAt p ∧
    guesses p' = guesses p ++ [mkGuess guess n (Some now)] ∧
    (if decide (guess = solutionWord room)
     then RoomManager.outcome res = RoomManager.Won ∧
          won p' = true ∧ score p' = n ∧ eliminated p' = false
     else won p' = won p ∧ score p' = score p ∧
          if decide (Config.MAX_GUESSES ≤ length (guesses p'))
          then RoomManager.outcome res = RoomManager.Eliminated ∧
               eliminated p' = true
          else RoomManager.outcome res = RoomManager.Continue ∧
               eliminated p' = false).
Proof.
  unfold RoomManager.submitGuess. intros H.
  destruct (s !! c) as [room|] eqn:Hc; [|done].
  destruct (find_player u (players room)) as [[i p]|] eqn:Hf; [|done].
  destruct (eliminated p) eqn:He; [done|].
  destruct (RoomManager.badGuess guess) eqn:Hb; [done|].
  exists room, i, p.
  case_bool_decide as Hw.
  - injection H as <- <-. eexists. split_and!; try done.
    cbn. by rewrite decide_True.
  - cbn [guesses set_guesses] in H.
    destruct (Nat.leb_spec Config.MAX_GUESSES
                (length (guesses p ++ [mkGuess guess n (Some now)]))) as [Hl|Hl];
      injection H as <- <-; eexists; (split_and!; try done); cbn;
      rewrite (decide_False (P := guess = _)) by done;
      [rewrite decide_True by done|rewrite decide_False by lia]; done.
Qed.

Lemma submitGuess_throw (now : Z) (c u guess : string) (n : Z) (s s' : Store)
    (e : Error) :
  RoomManager.submitGuess now c u guess n s = Throw s' e → s' = s.
Proof.
  unfold RoomManager.submitGuess. intros H.
  repeat case_match; congruence.
Qed.

(** C10. A call of [RoomManager.submitGuess] that returns changes one
    player record of one room and nothing else: the other rooms, every
    field of the room but [players], and every other player are as before.
    The guessing player gets one more guess; [won] and [score] are set when
    the guess is the solution, and [eliminated] is set when it is not and
    the player has used all the attempts. *)
Theorem submitGuess_frame (now : Z) (c u guess : string) (n : Z)
    (s s' : Store) (res : RoomManager.SubmitResult) :
  RoomManager.submitGuess now c u guess n s = Ok s' res →
  ∃ room room' i p p',
    s !! c = Some room ∧ s' !! c = Some room' ∧
    (∀ c', c' ≠ c → s' !! c' = s !! c') ∧
    status room' = status room ∧
    solutionWord room' = solutionWord room ∧
    roundNumber room' = roundNumber room ∧
    code room' = code room ∧ hostId room' = hostId room ∧
    mode room' = mode room ∧ maxPlayers room' = maxPlayers room ∧
    gameStartTime room' = gameStartTime room ∧
    createdAt room' = createdAt room ∧
    lastActivity room' = lastActivity room ∧
    settings room' = settings room ∧
    length (players room') = length (players room) ∧
    (∀ j, j ≠ i → players room' !! j = players room !! j) ∧
    players room !! i = Some p ∧ username p = u ∧
    players room' !! i = Some p' ∧
    player_id p' = player_id p ∧ username p' = username p ∧
    joinedAt p' = joinedAt p ∧
    guesses p' = guesses p ++ [mkGuess guess n (Some now)] ∧
    (guess = solutionWord room →
       won p' = true ∧ score p' = n ∧ eliminated p' = eliminated p) ∧
    (guess ≠ solutionWord room →
       won p' = won p ∧ score p' = score p ∧
       eliminated p' = bool_decide (Config.MAX_GUESSES ≤ length (guesses p'))).
Proof.
  intros H. apply submitGuess_inv in H
    as (room & i & p & p' & Hc & Hf & He & _ & _ & Hroom & -> & Hid & Hu & Hj & Hg & Hcase).
  apply find_player_Some in Hf as (Hi & Hup & _).
  exists room, (RoomManager.res_room res), i, p, p'.
  rewrite Hroom. cbn.
  split_and!; try done.
  - by rewrite lookup_insert_eq.
  - intros c' Hne. by rewrite lookup_insert_ne.
  - by rewrite length_insert.
  - intros j Hne. by rewrite list_lookup_insert_ne.
  - apply list_lookup_insert_eq. by eapply lookup_lt_Some.
  - intros Heq. rewrite decide_True in Hcase by done.
    destruct Hcase as (_ & Hw & Hs & Hel). by rewrite He.
  - intros Hne. rewrite decide_False in Hcase by done.
    destruct Hcase as (-> & -> & Hcase). split_and!; try done.
    case_decide; destruct Hcase as [_ ->].
    + by rewrite bool_decide_eq_true_2.
    + by rewrite bool_decide_eq_false_2.
Qed.

(** ** The time of the last activity *)

(** C3, as the code has it. [addPlayerToRoom], [removePlayerFromRoom] and
    [startGame], when they succeed, set [lastActivity] of the room to the
    current time (for [removePlayerFromRoom]: of the room that is still in
    the table); [submitGuess] leaves [lastActivity] as it was. *)
Theorem lastActivity_updates (now : Z) (c u : string) (s : Store) :
  (∀ s' room', RoomManager.addPlayerToRoom now c u s = Ok s' room' →
     lastActivity <$> s' !! c = Some now) ∧
  (∀ s', RoomManager.removePlayerFromRoom now c u s = (s', true) →
     ∀ room', s' !! c = Some room' → lastActivity room' = now) ∧
  (∀ rnd customWord s' room',
     RoomManager.startGame rnd now c customWord s = Ok s' room' →
     lastActivity <$> s' !! c = Some now) ∧
  (∀ guess n s' res,
     RoomManager.submitGuess now c u guess n s = Ok s' res →
     lastActivity <$> s' !! c = lastActivity <$> s !! c).
Proof.
  split_and!.
  - unfold RoomManager.addPlayerToRoom. intros s' room' H.
    destruct (s !! c) as [room|]; [|done].
    repeat case_match; try done. injection H as <- <-.
    by rewrite lookup_insert_eq.
  - unfold RoomManager.removePlayerFromRoom. intros s' H room' Hr.
    destruct (s !! c) as [room|]; [|done].
    destruct (find_player u (players room)) as [[i p]|]; [|done].
    destruct (players (RoomManager.spliced now i room)) eqn:Hps;
      injection H as <-.
    + unfold RoomManager.deleteRoom in Hr. by rewrite lookup_delete_eq in Hr.
    + rewrite lookup_insert_eq in Hr. injection Hr as <-. by case_bool_decide.
  - unfold RoomManager.startGame. intros rnd cw s' room' H.
    destruct (s !! c) as [room|]; [|done].
    repeat case_match; try done; injection H as <- <-;
      by rewrite lookup_insert_eq.
  - intros guess n s' res H.
    apply submitGuess_inv in H
      as (room & i & p & p' & Hc & _ & _ & _ & _ & Hroom & -> & _).
    by rewrite lookup_insert_eq, Hc, Hroom.
Qed.

(** *** The sweep *)

Section Sweep.
Variables (maxAgeHours now : Z).

Lemma cleanupLoop_absent (l : list (string * Room)) (acc : Store) (k : string) :
  acc !! k = None → RoomManager.cleanupLoop maxAgeHours now l acc !! k = None.
Proof.
  unfold RoomManager.cleanupLoop. revert acc.
  induction l as [|[k' r'] l IH]; intros acc Hk; [done|].
  cbn [foldl fst snd]. apply IH. case_match; [|done].
  unfold RoomManager.deleteRoom.
  destruct (decide (k' = k)) as [->|?].
  - apply lookup_delete_eq.
  - by rewrite lookup_delete_ne.
Qed.

Lemma cleanupLoop_kept (l : list (string * Room)) (acc : Store) (k : string) :
  (∀ r, (k, r) ∈ l → RoomManager.expired maxAgeHours now r = false) →
  RoomManager.cleanupLoop maxAgeHours now l acc !! k = acc !! k.
Proof.
  unfold RoomManager.cleanupLoop. revert acc.
  induction l as [|[k' r'] l IH]; intros acc Hl; [done|].
  cbn [foldl fst snd]. rewrite IH.
  - destruct (RoomManager.expired maxAgeHours now r') eqn:He; [|done].
    unfold RoomManager.deleteRoom.
    destruct (decide (k' = k)) as [->|?].
    + rewrite Hl in He; [done|]. apply list_elem_of_here.
    + by rewrite lookup_delete_ne.
  - intros r Hr. apply Hl. by apply list_elem_of_further.
Qed.

Lemma cleanupLoop_deleted (l : list (string * Room)) (acc : Store)
    (k : string) (r : Room) :
  (k, r) ∈ l → RoomManager.expired maxAgeHours now r = true →
  RoomManager.cleanupLoop maxAgeHours now l acc !! k = None.
Proof.
  revert acc. induction l as [|[k' r'] l IH]; intros acc Hin He.
  - by apply elem_of_nil in Hin.
  - apply elem_of_cons in Hin as [[= <- <-]|Hin].
    + unfold RoomManager.cleanupLoop. cbn [foldl fst snd]. rewrite He.
      apply cleanupLoop_absent. apply lookup_delete_eq.
    + unfold RoomManager.cleanupLoop. cbn [foldl fst snd]. by apply IH.
Qed.
End Sweep.

Lemma expired_spec (maxAgeHours now : Z) (room : Room) :
  RoomManager.expired maxAgeHours now room = true ↔
  (maxAgeHours * 3600000 < now - createdAt room)%Z.
Proof. unfold RoomManager.expired. rewrite Z.ltb_lt. lia. Qed.

(** C9. After the sweep a code is bound exactly when it was bound before
    to a room whose age [now - createdAt] does not exceed the maximum age
    (the configured hours, in milliseconds), and it is bound to the same
    room: the rooms older than that are deleted, the others are untouched. *)
Theorem cleanupOldRooms_spec (maxAgeHours now : Z) (s : Store) (c : string) :
  RoomManager.cleanupOldRooms maxAgeHours now s !! c =
  match s !! c with
  | Some room =>
      if decide (maxAgeHours * 3600000 < now - createdAt room)%Z
      then None else Some room
  | None => None
  end.
Proof.
  unfold RoomManager.cleanupOldRooms.
  destruct (s !! c) as [room|] eqn:Hc.
  - case_decide as Hexp.
    + apply (cleanupLoop_deleted _ _ _ _ _ room).
      * by apply elem_of_map_to_list.
      * by apply expired_spec.
    + rewrite cleanupLoop_kept, Hc; [done|].
      intros r Hr. apply elem_of_map_to_list in Hr.
      assert (r = room) as -> by congruence.
      destruct (RoomManager.expired maxAgeHours now room) eqn:He; [|done].
      by apply expired_spec in He.
  - by apply cleanupLoop_absent.
Qed.

(** With the default of 24 hours, the sample rooms, created at time 1000,
    are all kept 24 hours later and all deleted one millisecond after. *)
Example sweep_default :
  RoomManager.cleanupOldRooms Config.DEFAULT_MAX_ROOM_AGE_HOURS
    (1000 + 86400000) Examples.table = Examples.table ∧
  RoomManager.cleanupOldRooms Config.DEFAULT_MAX_ROOM_AGE_HOURS
    (1000 + 86400000 + 1) Examples.table = ∅.
Proof. split; by vm_compute. Qed.

(** *** Guess formats *)

Lemma upper_not_space (ch : ascii) :
  JsString.is_upper ch = true → JsString.is_space ch = false.
Proof. destruct ch as [[] [] [] [] [] [] [] []]; by vm_compute. Qed.

Lemma upper_is_letter (ch : ascii) :
  JsString.is_upper ch = true → JsString.is_letter ch = true.
Proof. unfold JsString.is_letter. intros ->. apply orb_true_r. Qed.

Lemma trimStart_upper (w : string) :
  JsString.all_chars JsString.is_upper w = true → JsString.trimStart w = w.
Proof.
  destruct w as [|ch w]; [done|]. cbn. intros [Hc _]%andb_true_iff.
  by rewrite (upper_not_space _ Hc).
Qed.

Lemma trimEnd_upper (w : string) :
  JsString.all_chars JsString.is_upper w = true → JsString.trimEnd w = w.
Proof.
  induction w as [|ch w IH]; [done|]. cbn. intros [Hc Hw]%andb_true_iff.
  rewrite (IH Hw). destruct w; [|done]. by rewrite (upper_not_space _ Hc).
Qed.

Lemma all_upper_letters (w : string) :
  JsString.all_chars JsString.is_upper w = true →
  JsString.all_chars JsString.is_letter w = true.
Proof.
  induction w as [|ch w IH]; [done|]. cbn. intros [Hc Hw]%andb_true_iff.
  by rewrite (upper_is_letter _ Hc), (IH Hw).
Qed.

(** A guess that [RoomManager.submitGuess] accepts has passed the check of
    the handler before it. *)
Lemma badGuess_format (guess : string) :
  RoomManager.badGuess guess = false →
  WordValidator.isValidWordFormat guess = true.
Proof.
  unfold RoomManager.badGuess, WordValidator.isValidWordFormat,
    JsString.test_upper_plus, JsString.test_letter_plus, JsString.trim.
  intros [Hlen [Hne Hup]%negb_false_iff%andb_true_iff]%orb_false_iff.
  apply negb_false_iff in Hlen.
  rewrite (trimStart_upper _ Hup), (trimEnd_upper _ Hup), Hlen.
  destruct (JsString.is_empty guess); [done|]. cbn.
  by rewrite (all_upper_letters _ Hup).
Qed.

Lemma find_other_insert (u : string) (ps : list Player) (i : nat)
    (p p' : Player) :
  ps !! i = Some p → username p = u → username p' = u →
  find_other u (<[i := p']> ps) = find_other u ps.
Proof.
  unfold find_other. revert i.
  induction ps as [|q ps IH]; intros i Hi Hp Hp'; [done|].
  destruct i as [|i]; simpl in *.
  - injection Hi as ->. by rewrite !decide_False by naive_solver.
  - case_decide; [done|]. by rewrite (IH i).
Qed.

(** *** The handlers, branch by branch

    The table and the events of the two calls; when the room manager
    throws, the table is the one at the [throw] and nothing is sent. *)

Lemma handleSubmitGuess_eq (now : Z) (c u guess : string) (n : Z) (s : Store) :
  GameHandler.handleSubmitGuess now c u guess n s =
  match s !! c with
  | None => (s, [GameError "Room not found"])
  | Some room =>
      match find_player u (players room) with
      | None => (s, [])
      | Some (_, player) =>
          if eliminated player then (s, [])
          else if negb (WordValidator.isValidWordFormat guess)
          then (s, [GameError "Invalid guess format"])
          else
            match RoomManager.submitGuess now c u guess n s with
            | Throw s1 _ => (s1, [])
            | Ok s1 result =>
                let '(s2, evs) := GameHandler.afterGuess c u result s1 in
                (s2,
                 evs ++
                 [GuessSubmitted u guess
                    (length (guesses (RoomManager.res_player result)))
                    (players (RoomManager.res_room result))
                    (RoomManager.res_won result)
                    (RoomManager.res_eliminated result)])
            end
      end
  end.
Proof.
  unfold GameHandler.handleSubmitGuess, GameHandler.callSubmitGuess,
    GameHandler.trySubmitGuess.
  destruct (s !! c) as [room|]; [|done].
  destruct (find_player u (players room)) as [[i p]|]; [|done].
  destruct (eliminated p); [done|].
  destruct (WordValidator.isValidWordFormat guess); [|done]. cbn [negb].
  destruct (RoomManager.submitGuess now c u guess n s) as [s1 res|s1 e]; [|done].
  by destruct (GameHandler.afterGuess c u res s1).
Qed.

Lemma handleStartGame_eq (words : list string) (rnd : nat) (now : Z)
    (c : string) (customWord : option string) (s : Store) :
  GameHandler.handleStartGame words rnd now c customWord s =
  match s !! c with
  | None => (s, [GameError "Room not found"])
  | Some room =>
      if bool_decide (mode room = Duel) && Nat.ltb (length (players room)) 2
      then (s, [GameError "Duel mode requires at least 2 players"])
      else if bool_decide (mode room = BattleRoyale)
              && Nat.ltb (length (players room)) 2
      then (s, [GameError "Battle Royale mode requires at least 2 players"])
      else if RoomManager.customWordGiven customWord
              && negb (WordValidator.isValidWord words
                         (JsString.toUpperCase
                            (JsString.trim (default "" customWord))))
      then (s, [GameError "Invalid word. Please choose a valid 5-letter word."])
      else
        match RoomManager.startGame rnd now c customWord s with
        | Throw s1 _ => (s1, [])
        | Ok s1 updatedRoom =>
            (s1, [GameStarted (solutionWord updatedRoom) (status updatedRoom)
                    (mode updatedRoom) (players updatedRoom)
                    (settings updatedRoom)])
        end
  end.
Proof.
  unfold GameHandler.handleStartGame, GameHandler.callStartGame,
    GameHandler.tryStartGame.
  destruct (s !! c) as [room|]; [|done].
  repeat (case_match; simplify_eq; try done).
Qed.

(** *** The handler on a guess the room manager accepts *)

Lemma handleSubmitGuess_accepted (now : Z) (c u guess : string) (n : Z)
    (s : Store) (room : Room) (i : nat) (p : Player) :
  s !! c = Some room →
  find_player u (players room) = Some (i, p) →
  eliminated p = false →
  RoomManager.badGuess guess = false →
  ∃ s1 res,
    RoomManager.submitGuess now c u guess n s = Ok s1 res ∧
    s1 !! c = Some (RoomManager.res_room res) ∧
    GameHandler.handleSubmitGuess now c u guess n s =
      ((GameHandler.afterGuess c u res s1).1,
       (GameHandler.afterGuess c u res s1).2 ++
       [GuessSubmitted u guess
          (length (guesses (RoomManager.res_player res)))
          (players (RoomManager.res_room res))
          (RoomManager.res_won res) (RoomManager.res_eliminated res)]).
Proof.
  intros Hc Hf He Hb.
  rewrite handleSubmitGuess_eq, Hc, Hf, He.
  rewrite (badGuess_format _ Hb). cbn [negb].
  destruct (RoomManager.submitGuess now c u guess n s) as [s1 res|s1 e] eqn:Hs.
  - exists s1, res. split; [done|].
    destruct (submitGuess_inv _ _ _ _ _ _ _ _ Hs)
      as (? & ? & ? & ? & _ & _ & _ & _ & _ & _ & -> & _).
    split; [by rewrite lookup_insert_eq|].
    by destruct (GameHandler.afterGuess c u res _).
  - exfalso. revert Hs. unfold RoomManager.submitGuess.
    rewrite Hc, Hf, He, Hb. by repeat case_match.
Qed.

(** [afterGuess] writes nothing but the status, and only to finish. *)
Lemma afterGuess_room (c u : string) (res : RoomManager.SubmitResult)
    (s : Store) :
  s !! c = Some (RoomManager.res_room res) →
  ∃ room', (GameHandler.afterGuess c u res s).1 !! c = Some room' ∧
    (room' = RoomManager.res_room res ∨
     room' = set_status Finished (RoomManager.res_room res)).
Proof.
  intros Hc. unfold GameHandler.afterGuess, finish.
  repeat case_match; cbn [fst]; rewrite ?lookup_insert_eq; eauto.
Qed.

(** ** Guesses in a duel *)

(** C6. In a duel, a player who is not eliminated submits a well-formed
    guess that is not the solution and that is their sixth (or later): if
    the other player has made at least six guesses the room becomes
    [Finished] and a game-over without winner is broadcast; if the other
    player has made fewer (or there is no other player) the status of the
    room stays what it was and no game-over is broadcast. *)
Theorem duel_exhaustion (now : Z) (c u guess : string) (n : Z) (s : Store)
    (room : Room) (i : nat) (p : Player) :
  s !! c = Some room →
  mode room = Duel →
  find_player u (players room) = Some (i, p) →
  eliminated p = false →
  RoomManager.badGuess guess = false →
  guess ≠ solutionWord room →
  Config.MAX_GUESSES ≤ length (guesses p) + 1 →
  let r := GameHandler.handleSubmitGuess now c u guess n s in
  ∃ room', r.1 !! c = Some room' ∧
    ((∃ j other, find_other u (players room) = Some (j, other) ∧
                 Config.MAX_GUESSES ≤ length (guesses other)) →
       status room' = Finished ∧
       GameOver None (solutionWord room) Finished Duel (players room') ∈ r.2) ∧
    ((∀ j other, find_other u (players room) = Some (j, other) →
                 length (guesses other) < Config.MAX_GUESSES) →
       status room' = status room ∧
       Forall (λ e, is_game_over e = false) r.2).
Proof.
  intros Hc Hmode Hf He Hb Hne Hlen r.
  destruct (handleSubmitGuess_accepted now c u guess n s room i p Hc Hf He Hb)
    as (s1 & res & Hs & Hs1 & Hr).
  subst r. rewrite Hr. cbn [fst snd]. clear Hr.
  apply submitGuess_inv in Hs
    as (room0 & i0 & p0 & p' & Hc0 & Hf0 & _ & _ & _ & Hroom & _ & _ & Hu' & _ & Hg & Hcase).
  assert (room0 = room) as -> by congruence.
  assert (i0 = i ∧ p0 = p) as [-> ->] by (split; congruence).
  rewrite decide_False in Hcase by done. destruct Hcase as (_ & _ & Hcase).
  rewrite decide_True in Hcase by (rewrite Hg, length_app; cbn; lia).
  destruct Hcase as [Hout _].
  apply find_player_Some in Hf as (Hi & Hu & _).
  unfold GameHandler.afterGuess. rewrite Hout, Hroom. cbn [mode set_players players].
  rewrite Hmode.
  rewrite (find_other_insert u (players room) i p p' Hi Hu) by congruence.
  destruct (find_other u (players room)) as [[j other]|] eqn:Hother.
  - destruct (Nat.leb_spec Config.MAX_GUESSES (length (guesses other))) as [Hl|Hl].
    + unfold finish. cbn. rewrite lookup_insert_eq. eexists. split; [done|].
      split.
      * intros _. split; [done|]. rewrite Hmode. set_solver.
      * intros Hall. specialize (Hall j other eq_refl). lia.
    + cbn [fst snd]. rewrite Hs1, Hroom. eexists. split; [done|]. split.
      * intros (j' & other' & [= <- <-] & Hl'). lia.
      * intros _. split; [done|]. by repeat constructor.
  - cbn [fst snd]. rewrite Hs1, Hroom. eexists. split; [done|]. split.
    + by intros (j' & other' & [=] & _).
    + intros _. split; [done|]. by repeat constructor.
Qed.

(** C2, as the code has it. In a duel, a well-formed guess equal to the
    solution, from a player who is not eliminated, makes the room
    [Finished] and broadcasts a game-over with that player as winner. A
    finished room stays finished under every later [submit-guess]. But the
    handler never reads the status: the guess of a player who is not
    eliminated is recorded in any room, finished or not. *)
Theorem duel_win_finished_absorbing (now : Z) (c u guess : string) (n : Z)
    (s : Store) (room : Room) :
  s !! c = Some room →
  let r := GameHandler.handleSubmitGuess now c u guess n s in
  (mode room = Duel →
   (∃ i p, find_player u (players room) = Some (i, p) ∧ eliminated p = false) →
   RoomManager.badGuess guess = false →
   guess = solutionWord room →
   ∃ room', r.1 !! c = Some room' ∧ status room' = Finished ∧
     GameOver (Some u) (solutionWord room) Finished Duel (players room') ∈ r.2) ∧
  (status room = Finished →
   ∃ room', r.1 !! c = Some room' ∧ status room' = Finished) ∧
  (∀ i p, find_player u (players room) = Some (i, p) →
     eliminated p = false →
     RoomManager.badGuess guess = false →
     ∃ room' p', r.1 !! c = Some room' ∧ players room' !! i = Some p' ∧
       guesses p' = guesses p ++ [mkGuess guess n (Some now)]).
Proof.
  intros Hc r. split_and!.
  - intros Hmode (i & p & Hf & He) Hb Hw.
    destruct (handleSubmitGuess_accepted now c u guess n s room i p Hc Hf He Hb)
      as (s1 & res & Hs & Hs1 & Hr).
    subst r. rewrite Hr. cbn [fst snd]. clear Hr.
    apply submitGuess_inv in Hs
      as (room0 & i0 & p0 & p' & Hc0 & _ & _ & _ & _ & Hroom & _ & _ & _ & _ & _ & Hcase).
    assert (room0 = room) as -> by congruence.
    rewrite decide_True in Hcase by done. destruct Hcase as [Hout _].
    unfold GameHandler.afterGuess, finish.
    rewrite Hout, Hroom. cbn [mode set_players]. rewrite Hmode. cbn.
    rewrite lookup_insert_eq. eexists. split; [done|]. split; [done|].
    rewrite Hmode. set_solver.
  - intros Hst. subst r. rewrite handleSubmitGuess_eq, Hc.
    destruct (find_player u (players room)) as [[i p]|] eqn:Hf; [|by eauto].
    destruct (eliminated p) eqn:He; [by eauto|].
    destruct (WordValidator.isValidWordFormat guess); cbn [negb]; [|by eauto].
    destruct (RoomManager.submitGuess now c u guess n s) as [s1 res|s1 e] eqn:Hs.
    + apply submitGuess_inv in Hs
        as (room0 & i0 & p0 & p' & Hc0 & _ & _ & _ & _ & Hroom & -> & _).
      assert (room0 = room) as -> by congruence.
      destruct (afterGuess_room c u res (<[c := RoomManager.res_room res]> s))
        as (room' & Hr' & Hcases); [by rewrite lookup_insert_eq|].
      destruct (GameHandler.afterGuess c u res _) as [s2 evs]. cbn [fst] in *.
      exists room'. split; [done|].
      destruct Hcases as [->| ->]; [|done]. by rewrite Hroom.
    + apply submitGuess_throw in Hs as ->. by eauto.
  - intros i p Hf He Hb.
    destruct (handleSubmitGuess_accepted now c u guess n s room i p Hc Hf He Hb)
      as (s1 & res & Hs & Hs1 & Hr).
    subst r. rewrite Hr. cbn [fst snd]. clear Hr.
    apply submitGuess_inv in Hs
      as (room0 & i0 & p0 & p' & Hc0 & Hf0 & _ & _ & _ & Hroom & _ & _ & _ & _ & Hg & _).
    assert (room0 = room) as -> by congruence.
    assert (i0 = i ∧ p0 = p) as [-> ->] by (split; congruence).
    apply find_player_Some in Hf as (Hi & _).
    destruct (afterGuess_room c u res s1) as (room' & Hr' & Hcases); [done|].
    exists room', p'. split; [done|]. split; [|done].
    assert (players room' = <[i := p']> (players room)) as ->.
    { destruct Hcases as [->| ->]; by rewrite Hroom. }
    apply list_lookup_insert_eq. by eapply lookup_lt_Some.
Qed.

(** *** Normalisation of a custom word *)

Lemma space_upper_char (ch : ascii) :
  JsString.is_space (JsString.upper_char ch) = JsString.is_space ch.
Proof. destruct ch as [[] [] [] [] [] [] [] []]; by vm_compute. Qed.

Lemma upper_char_idem (ch : ascii) :
  JsString.upper_char (JsString.upper_char ch) = JsString.upper_char ch.
Proof. destruct ch as [[] [] [] [] [] [] [] []]; by vm_compute. Qed.

Lemma toUpperCase_idem (w : string) :
  JsString.toUpperCase (JsString.toUpperCase w) = JsString.toUpperCase w.
Proof. induction w as [|ch w IH]; [done|]. cbn. by rewrite upper_char_idem, IH. Qed.

Lemma trimStart_toUpperCase (w : string) :
  JsString.trimStart (JsString.toUpperCase w)
  = JsString.toUpperCase (JsString.trimStart w).
Proof.
  induction w as [|ch w IH]; [done|]. cbn. rewrite space_upper_char.
  by destruct (JsString.is_space ch).
Qed.

Lemma trimEnd_toUpperCase (w : string) :
  JsString.trimEnd (JsString.toUpperCase w)
  = JsString.toUpperCase (JsString.trimEnd w).
Proof.
  induction w as [|ch w IH]; [done|]. cbn. rewrite IH, space_upper_char.
  destruct (JsString.trimEnd w); [|done].
  by destruct (JsString.is_space ch).
Qed.

Lemma trimEnd_idem (w : string) :
  JsString.trimEnd (JsString.trimEnd w) = JsString.trimEnd w.
Proof.
  induction w as [|ch w IH]; [done|]. cbn.
  destruct (JsString.trimEnd w) as [|d t] eqn:Ht.
  - destruct (JsString.is_space ch) eqn:Hs; [done|]. cbn. by rewrite Hs.
  - cbn [JsString.trimEnd] in *. fold JsString.trimEnd in *.
    change (JsString.trimEnd (String ch (String d t)))
      with (match JsString.trimEnd (String d t) with
            | EmptyString =>
                if JsString.is_space ch then EmptyString
                else String ch EmptyString
            | u => String ch u
            end).
    by rewrite IH.
Qed.

Lemma trimStart_clean (w : string) : JsString.starts_clean (JsString.trimStart w).
Proof.
  induction w as [|ch w IH]; [done|]. cbn.
  by destruct (JsString.is_space ch) eqn:Hs.
Qed.

Lemma trimEnd_clean (w : string) :
  JsString.starts_clean w → JsString.starts_clean (JsString.trimEnd w).
Proof.
  destruct w as [|ch w]; [done|]. cbn. intros Hs.
  destruct (JsString.trimEnd w); [by rewrite Hs|done].
Qed.

Lemma trimStart_of_clean (w : string) :
  JsString.starts_clean w → JsString.trimStart w = w.
Proof. destruct w as [|ch w]; [done|]. cbn. by intros ->. Qed.

Lemma trim_idem (w : string) :
  JsString.trim (JsString.trim w) = JsString.trim w.
Proof.
  unfold JsString.trim.
  rewrite (trimStart_of_clean (JsString.trimEnd _)).
  - apply trimEnd_idem.
  - apply trimEnd_clean, trimStart_clean.
Qed.

Lemma trim_toUpperCase (w : string) :
  JsString.trim (JsString.toUpperCase w)
  = JsString.toUpperCase (JsString.trim w).
Proof.
  unfold JsString.trim. by rewrite trimStart_toUpperCase, trimEnd_toUpperCase.
Qed.

Lemma toUpperCase_empty (w : string) :
  JsString.is_empty (JsString.toUpperCase w) = JsString.is_empty w.
Proof. by destruct w. Qed.

(** [isValidWord] normalises its argument itself: the handler's
    [customWord.trim().toUpperCase()] does not change its verdict. *)
Lemma isValidWord_normalised (words : list string) (w : string) :
  WordValidator.isValidWord words (JsString.toUpperCase (JsString.trim w))
  = WordValidator.isValidWord words w.
Proof.
  unfold WordValidator.isValidWord.
  rewrite trim_toUpperCase, trim_idem, toUpperCase_idem, toUpperCase_empty.
  destruct (JsString.is_empty w) eqn:Hw.
  { by destruct w. }
  destruct (JsString.is_empty (JsString.trim w)) eqn:Ht; [|done].
  by destruct (JsString.trim w).
Qed.

(** ** Custom words *)

(** C4, as the code has it. The word check is made by the handler, on
    custom words that are not blank (not empty once trimmed).
    - A custom word that is not blank and that the dictionary check
      rejects makes [handleStartGame] fail: the table of rooms is unchanged
      and the only event is a private error, which is the invalid-word
      error when the room exists and has at least two players (the checks
      of the room come first).
    - A blank custom word is handled as no custom word at all: in a waiting
      room of at least two players the game starts, with a random word.
    - [RoomManager.startGame] checks no word: on a waiting room of at least
      two players it starts the game with the trimmed, upper-cased custom
      word as the solution, whatever the dictionary says.
    The custom word ranges over the strings on which [toUpperCase] is
    exact. *)
Theorem invalid_custom_word (words : list string) (rnd : nat) (now : Z)
    (c w : string) (s : Store) :
  JsString.upper_fits w = true →
  let r := GameHandler.handleStartGame words rnd now c (Some w) s in
  (JsString.trim w ≠ "" →
   WordValidator.isValidWord words w = false →
   r.1 = s ∧
   (∃ message, r.2 = [GameError message]) ∧
   (∀ room, s !! c = Some room → 2 ≤ length (players room) →
      r.2 = [GameError "Invalid word. Please choose a valid 5-letter word."])) ∧
  (JsString.trim w = "" →
   r = GameHandler.handleStartGame words rnd now c None s ∧
   ∀ room, s !! c = Some room → status room = Waiting →
     2 ≤ length (players room) →
     ∃ room', r.1 = <[c := room']> s ∧ status room' = Playing ∧
       solutionWord room' = RoomManager.getRandomWord rnd ∧
       r.2 = [GameStarted (solutionWord room') Playing (mode room)
                (players room') (settings room)]) ∧
  (JsString.trim w ≠ "" →
   ∀ room, s !! c = Some room → status room = Waiting →
     2 ≤ length (players room) →
     ∃ room',
       RoomManager.startGame rnd now c (Some w) s = Ok (<[c := room']> s) room' ∧
       status room' = Playing ∧
       solutionWord room' = JsString.toUpperCase (JsString.trim w)).
Proof.
  intros _ r. subst r. split_and!.
  - intros Hblank Hbad. rewrite handleStartGame_eq.
    assert (RoomManager.customWordGiven (Some w) = true) as Hgiven.
    { unfold RoomManager.customWordGiven.
      destruct w as [|ch w]; [done|]. cbn [JsString.is_empty negb andb].
      by destruct (JsString.trim (String ch w)). }
    rewrite Hgiven. change (default "" (Some w)) with w.
    rewrite isValidWord_normalised, Hbad.
    cbn [negb andb].
    destruct (s !! c) as [room|] eqn:Hc; [|by cbn; split_and!; eauto].
    destruct (Nat.ltb_spec (length (players room)) 2) as [Hl|Hl].
    + destruct (mode room); cbn; split_and!; eauto; intros ? [= <-] ?; lia.
    + destruct (mode room); cbn; split_and!; eauto.
  - intros Hblank.
    assert (RoomManager.customWordGiven (Some w) = false) as Hgiven.
    { unfold RoomManager.customWordGiven. rewrite Hblank.
      apply andb_false_r. }
    split.
    + rewrite !handleStartGame_eq. unfold RoomManager.startGame.
      rewrite Hgiven. by change (RoomManager.customWordGiven None) with false.
    + intros room Hc Hst Hl. rewrite handleStartGame_eq, Hc, Hgiven.
      apply Nat.ltb_ge in Hl as Hlt. rewrite Hlt, !andb_false_r.
      cbn [andb]. unfold RoomManager.startGame.
      rewrite Hc, Hlt, Hgiven, bool_decide_true by done. cbn [negb].
      eexists. by split_and!.
  - intros Hblank room Hc Hst Hl.
    assert (RoomManager.customWordGiven (Some w) = true) as Hgiven.
    { unfold RoomManager.customWordGiven.
      destruct w as [|ch w]; [done|]. cbn [JsString.is_empty negb andb].
      by destruct (JsString.trim (String ch w)). }
    apply Nat.ltb_ge in Hl as Hlt. unfold RoomManager.startGame.
    rewrite Hc, Hlt, Hgiven, bool_decide_true by done. cbn [negb].
    eexists. by split_and!.
Qed.


(** ** Winning a Battle Royale *)

(** C1, on the room [ROYAL2] (Battle Royale, players [A] and [B], both
    active, solution [HELLO]): [A] guesses [HELLO]. [handleSubmitGuess]
    records the win but does not mark [A] eliminated, so two players count
    as active, the room stays [Playing] and no game-over is broadcast; the
    event that is broadcast nevertheless reports [A] as eliminated. *)
Theorem battle_royale_winner_stays_active :
  let s := Examples.table in
  let r := GameHandler.handleSubmitGuess 2000 "ROYAL2" "A" "HELLO" 3 s in
  solutionWord <$> s !! "ROYAL2" = Some "HELLO" ∧
  mode <$> s !! "ROYAL2" = Some BattleRoyale ∧
  Examples.standing "ROYAL2" s = Some [("A", false, false); ("B", false, false)] ∧
  Examples.standing "ROYAL2" r.1 = Some [("A", true, false); ("B", false, false)] ∧
  status <$> r.1 !! "ROYAL2" = Some Playing ∧
  filter (λ e, is_game_over e = true) r.2 = [] ∧
  (∃ ps, r.2 !! 0 = Some (PlayerEliminated "A" 2 ps)).
Proof. vm_compute. split_and!; try done. by eexists. Qed.

(** The older server on the same input: [A] is marked eliminated, [B] is
    the only active player left, the room is [Finished] and the game-over
    names [B]. *)
Lemma legacy_battle_royale_winner_eliminated :
  let s := Examples.table in
  let r := Legacy.submitGuess "ROYAL2" "A" "HELLO" 3 s in
  Examples.standing "ROYAL2" r.1 = Some [("A", true, true); ("B", true, false)] ∧
  status <$> r.1 !! "ROYAL2" = Some Finished ∧
  (∃ ps, r.2 !! 0 = Some (GameOver (Some "B") "HELLO" Finished BattleRoyale ps)).
Proof. vm_compute. split_and!; try done. by eexists. Qed.

(** Three players: [A] wins, then [B] uses the sixth attempt. [A] and [C]
    still count as active, so the room stays [Playing]. *)
Lemma battle_royale_three_players :
  let s1 := (GameHandler.handleSubmitGuess 2000 "ROYAL3" "A" "HELLO" 3
               Examples.table).1 in
  let r := GameHandler.handleSubmitGuess 2001 "ROYAL3" "B" "WORLD" 6 s1 in
  Examples.standing "ROYAL3" r.1
    = Some [("A", true, false); ("B", false, true); ("C", false, false)] ∧
  status <$> r.1 !! "ROYAL3" = Some Playing ∧
  filter (λ e, is_game_over e = true) r.2 = [] ∧
  (∃ ps, r.2 !! 0 = Some (PlayerEliminated "B" 2 ps)).
Proof. vm_compute. split_and!; try done. by eexists. Qed.

(** On every room and in both modes: the handler leaves the winner of a
    guess active. *)
Lemma handler_winner_not_eliminated (now : Z) (c u guess : string) (n : Z)
    (s : Store) (room : Room) (i : nat) (p : Player) :
  s !! c = Some room →
  find_player u (players room) = Some (i, p) →
  eliminated p = false →
  RoomManager.badGuess guess = false →
  guess = solutionWord room →
  ∃ room' p',
    (GameHandler.handleSubmitGuess now c u guess n s).1 !! c = Some room' ∧
    players room' !! i = Some p' ∧ won p' = true ∧ eliminated p' = false.
Proof.
  intros Hc Hf He Hb Hw.
  destruct (handleSubmitGuess_accepted now c u guess n s room i p Hc Hf He Hb)
    as (s1 & res & Hs & Hs1 & Hr).
  rewrite Hr. cbn [fst]. clear Hr.
  apply submitGuess_inv in Hs
    as (room0 & i0 & p0 & p' & Hc0 & Hf0 & _ & _ & _ & Hroom & _ & _ & _ & _ & _ & Hcase).
  assert (room0 = room) as -> by congruence.
  assert (i0 = i ∧ p0 = p) as [-> ->] by (split; congruence).
  rewrite decide_True in Hcase by done. destruct Hcase as (_ & Hwon & _ & Hel).
  apply find_player_Some in Hf as (Hi & _).
  destruct (afterGuess_room c u res s1) as (room' & Hr' & Hcases); [done|].
  exists room', p'. split_and!; try done.
  assert (players room' = <[i := p']> (players room)) as ->.
  { destruct Hcases as [->| ->]; by rewrite Hroom. }
  apply list_lookup_insert_eq. by eapply lookup_lt_Some.
Qed.

(** ** The properties on the sample rooms *)

Lemma addPlayerToRoom_failures_witness :
  let s := Examples.table in
  RoomManager.addPlayerToRoom 2000 "NOROOM" "Z" s = Throw s RoomNotFound ∧
  RoomManager.addPlayerToRoom 2000 "DUEL01" "Z" s = Throw s GameAlreadyInProgress ∧
  RoomManager.addPlayerToRoom 2000 "LOBBY2" "Z" s = Throw s (RoomFull 2) ∧
  RoomManager.addPlayerToRoom 2000 "LOBBY3" "B" s = Throw s UsernameTaken.
Proof.
  cbv zeta. split_and!.
  - apply (addPlayerToRoom_failures 2000 "NOROOM" "Z" Examples.table).
    by vm_compute.
  - destruct (addPlayerToRoom_failures 2000 "DUEL01" "Z" Examples.table)
      as (_ & H & _).
    apply (H (Examples.game "DUEL01" Duel Playing
                [Examples.fresh "A"; Examples.fresh "B"])); by vm_compute.
  - destruct (addPlayerToRoom_failures 2000 "LOBBY2" "Z" Examples.table)
      as (_ & H & _).
    apply (H (Examples.lobby "LOBBY2" Duel
                [Examples.fresh "A"; Examples.fresh "B"]));
      [by vm_compute|done|vm_compute; lia].
  - destruct (addPlayerToRoom_failures 2000 "LOBBY3" "B" Examples.table)
      as (_ & H & _).
    apply (H (Examples.lobby "LOBBY3" BattleRoyale
                [Examples.fresh "A"; Examples.fresh "B"; Examples.fresh "C"]));
      [by vm_compute|done|vm_compute; lia|].
    exists (Examples.fresh "B"). split; [|done].
    apply list_elem_of_further, list_elem_of_here.
Defined.

Lemma removePlayerFromRoom_spec_witness :
  let s := Examples.table in
  RoomManager.removePlayerFromRoom 2000 "NOROOM" "A" s = (s, false) ∧
  RoomManager.removePlayerFromRoom 2000 "LOBBY3" "Z" s = (s, false) ∧
  (RoomManager.removePlayerFromRoom 2000 "SOLO01" "A" s).2 = true ∧
  (RoomManager.removePlayerFromRoom 2000 "SOLO01" "A" s).1 !! "SOLO01" = None ∧
  (∃ room',
     (RoomManager.removePlayerFromRoom 2000 "LOBBY3" "A" s).1 !! "LOBBY3"
       = Some room' ∧
     players room' = [Examples.fresh "B"; Examples.fresh "C"] ∧
     hostId room' = "B").
Proof.
  cbv zeta.
  pose (l3 := Examples.lobby "LOBBY3" BattleRoyale
                [Examples.fresh "A"; Examples.fresh "B"; Examples.fresh "C"]).
  pose (solo := Examples.lobby "SOLO01" BattleRoyale [Examples.fresh "A"]).
  split_and!.
  - apply (removePlayerFromRoom_spec 2000 "NOROOM" "A" Examples.table).
    by vm_compute.
  - destruct (removePlayerFromRoom_spec 2000 "LOBBY3" "Z" Examples.table)
      as (_ & H).
    apply (H l3); [by vm_compute|].
    intros (p & Hp & Hu). revert Hp Hu. unfold l3. cbn.
    rewrite !elem_of_cons, elem_of_nil. by intros [->|[->|[->|[]]]].
  - destruct (removePlayerFromRoom_spec 2000 "SOLO01" "A" Examples.table)
      as (_ & H).
    by apply (proj2 (H solo eq_refl) 0 (Examples.fresh "A")).
  - destruct (removePlayerFromRoom_spec 2000 "SOLO01" "A" Examples.table)
      as (_ & H).
    by apply (proj2 (H solo eq_refl) 0 (Examples.fresh "A")).
  - destruct (removePlayerFromRoom_spec 2000 "LOBBY3" "A" Examples.table)
      as (_ & H).
    destruct (H l3 eq_refl) as (_ & H').
    destruct (H' 0 (Examples.fresh "A") eq_refl) as (_ & _ & _ & Hrest).
    destruct (Hrest (Examples.fresh "B") [Examples.fresh "C"] eq_refl)
      as (room' & Hr & Hps & Hhost).
    exists room'. by split_and!.
Defined.

Lemma startGame_spec_witness :
  let s := Examples.table in
  (∃ room', RoomManager.startGame 0 2000 "LOBBY2" None s
              = Ok (<["LOBBY2" := room']> s) room' ∧
     solutionWord room' = "HELLO" ∧
     Forall (λ p, guesses p = [] ∧ eliminated p = false ∧
                  won p = false ∧ score p = 0%Z) (players room') ∧
     status room' = Playing ∧
     gameStartTime room' = Some 2000%Z ∧
     roundNumber room' = 1%Z) ∧
  (∃ e, RoomManager.startGame 0 2000 "SOLO01" None s = Throw s e).
Proof.
  cbv zeta. split.
  - destruct (startGame_spec 0 2000 "LOBBY2" None Examples.table
                (Examples.lobby "LOBBY2" Duel
                   [Examples.fresh "A"; Examples.fresh "B"]) eq_refl)
      as (H & _).
    destruct H as (room' & Hs & Hw & _ & Hp & Hst & Ht & Hr);
      [done|vm_compute; lia|].
    exists room'. by split_and!.
  - destruct (startGame_spec 0 2000 "SOLO01" None Examples.table
                (Examples.lobby "SOLO01" BattleRoyale [Examples.fresh "A"])
                eq_refl)
      as (_ & H).
    apply H. cbn. lia.
Defined.

(** C3 does not hold for [submitGuess]: a guess accepted at time 2000 in
    room [DUEL01] leaves [lastActivity] at 1002. *)
Lemma submitGuess_keeps_lastActivity :
  let s := Examples.table in
  let r := RoomManager.submitGuess 2000 "DUEL01" "A" "WORLD" 1 s in
  is_ok r = true ∧
  lastActivity <$> s !! "DUEL01" = Some 1002%Z ∧
  lastActivity <$> store_of r !! "DUEL01" = Some 1002%Z ∧
  lastActivity <$> store_of r !! "DUEL01" ≠ Some 2000%Z.
Proof. by vm_compute. Qed.

Lemma lastActivity_updates_witness :
  let s := Examples.table in
  lastActivity <$>
    store_of (RoomManager.addPlayerToRoom 2000 "LOBBY3" "D" s) !! "LOBBY3"
    = Some 2000%Z ∧
  (∀ room',
     (RoomManager.removePlayerFromRoom 2000 "LOBBY3" "A" s).1 !! "LOBBY3"
       = Some room' → lastActivity room' = 2000%Z) ∧
  lastActivity <$>
    store_of (RoomManager.startGame 0 2000 "LOBBY3" None s) !! "LOBBY3"
    = Some 2000%Z ∧
  lastActivity <$>
    store_of (RoomManager.submitGuess 2000 "DUEL01" "A" "WORLD" 1 s) !! "DUEL01"
    = lastActivity <$> s !! "DUEL01".
Proof.
  cbv zeta.
  destruct (lastActivity_updates 2000 "LOBBY3" "D" Examples.table)
    as (Hadd & _).
  destruct (lastActivity_updates 2000 "LOBBY3" "A" Examples.table)
    as (_ & Hremove & Hstart & _).
  destruct (lastActivity_updates 2000 "DUEL01" "A" Examples.table)
    as (_ & _ & _ & Hguess).
  split_and!.
  - destruct (RoomManager.addPlayerToRoom 2000 "LOBBY3" "D" Examples.table)
      as [s' room'|s' e] eqn:E; [|by vm_compute in E].
    by apply (Hadd s' room').
  - apply Hremove.
    destruct (RoomManager.removePlayerFromRoom 2000 "LOBBY3" "A" Examples.table)
      as [s' b] eqn:E.
    assert (b = true) as -> by (by vm_compute in E; injection E as _ <-).
    done.
  - destruct (RoomManager.startGame 0 2000 "LOBBY3" None Examples.table)
      as [s' room'|s' e] eqn:E; [|by vm_compute in E].
    by apply (Hstart 0 None s' room').
  - destruct (RoomManager.submitGuess 2000 "DUEL01" "A" "WORLD" 1 Examples.table)
      as [s' res|s' e] eqn:E; [|by vm_compute in E].
    by apply (Hguess "WORLD" 1%Z s' res).
Defined.

(** C2 does not hold for a finished room: in the finished duel [DUEL02]
    the guess of [B] is recorded and the table of rooms changes. *)
Lemma finished_room_records_guess :
  let s := Examples.table in
  let r := GameHandler.handleSubmitGuess 2000 "DUEL02" "B" "WORLD" 1 s in
  mode <$> s !! "DUEL02" = Some Duel ∧
  status <$> s !! "DUEL02" = Some Finished ∧
  Examples.guessesOf "DUEL02" "B" s = Some [] ∧
  Examples.guessesOf "DUEL02" "B" r.1
    = Some [mkGuess "WORLD" 1 (Some 2000%Z)] ∧
  r.1 ≠ s.
Proof.
  cbv zeta. split_and!; by vm_compute.
Qed.

Lemma duel_win_finished_absorbing_witness :
  let s := Examples.table in
  (∃ room',
     (GameHandler.handleSubmitGuess 2000 "DUEL01" "A" "HELLO" 1 s).1 !! "DUEL01"
       = Some room' ∧ status room' = Finished ∧
     GameOver (Some "A") "HELLO" Finished Duel (players room')
       ∈ (GameHandler.handleSubmitGuess 2000 "DUEL01" "A" "HELLO" 1 s).2) ∧
  (∃ room',
     (GameHandler.handleSubmitGuess 2000 "DUEL02" "B" "WORLD" 1 s).1 !! "DUEL02"
       = Some room' ∧ status room' = Finished) ∧
  (∃ room' p',
     (GameHandler.handleSubmitGuess 2000 "DUEL02" "B" "WORLD" 1 s).1 !! "DUEL02"
       = Some room' ∧ players room' !! 1 = Some p' ∧
     guesses p' = [mkGuess "WORLD" 1 (Some 2000%Z)]).
Proof.
  cbv zeta. split_and!.
  - apply (duel_win_finished_absorbing 2000 "DUEL01" "A" "HELLO" 1
             Examples.table
             (Examples.game "DUEL01" Duel Playing
                [Examples.fresh "A"; Examples.fresh "B"]) eq_refl);
      try done.
    by exists 0, (Examples.fresh "A").
  - by apply (duel_win_finished_absorbing 2000 "DUEL02" "B" "WORLD" 1
                Examples.table
                (Examples.game "DUEL02" Duel Finished
                   [Examples.winner "A"; Examples.fresh "B"]) eq_refl).
  - destruct (duel_win_finished_absorbing 2000 "DUEL02" "B" "WORLD" 1
                Examples.table
                (Examples.game "DUEL02" Duel Finished
                   [Examples.winner "A"; Examples.fresh "B"]) eq_refl)
      as (_ & _ & Hrec).
    by apply (Hrec 1 (Examples.fresh "B")).
Defined.

(** C4 does not hold for a blank custom word: it is not empty and the
    dictionary check rejects it, yet the game of room [LOBBY2] starts, with
    a random word. *)
Lemma blank_custom_word_starts_game :
  let s := Examples.table in
  let r := GameHandler.handleStartGame Examples.dictionary 0 2000 "LOBBY2"
             (Some " ") s in
  JsString.is_empty " " = false ∧
  WordValidator.isValidWord Examples.dictionary " " = false ∧
  status <$> s !! "LOBBY2" = Some Waiting ∧
  status <$> r.1 !! "LOBBY2" = Some Playing ∧
  solutionWord <$> r.1 !! "LOBBY2" = Some "HELLO" ∧
  Examples.standing "LOBBY2" r.1
    = Some [("A", false, false); ("B", false, false)] ∧
  (∃ ps cfg, r.2 = [GameStarted "HELLO" Playing Duel ps cfg]).
Proof. cbv zeta. split_and!; try by vm_compute. vm_compute. by eexists _, _. Qed.

(** [RoomManager.startGame] takes the word that the handler refuses. *)
Example startGame_takes_invalid_word :
  WordValidator.isValidWord Examples.dictionary " zzzzz " = false ∧
  (∃ s1 room',
     RoomManager.startGame 0 2000 "LOBBY2" (Some " zzzzz ") Examples.table
       = Ok s1 room' ∧
     status room' = Playing ∧ solutionWord room' = "ZZZZZ").
Proof. split; [by vm_compute|]. eexists _, _. by vm_compute. Qed.

Lemma invalid_custom_word_witness :
  let s := Examples.table in
  let r := GameHandler.handleStartGame Examples.dictionary 0 2000 "LOBBY2"
             (Some " zzzzz ") s in
  let r' := GameHandler.handleStartGame Examples.dictionary 0 2000 "LOBBY2"
              (Some Examples.blank) s in
  (r.1 = s ∧
   r.2 = [GameError "Invalid word. Please choose a valid 5-letter word."]) ∧
  (∃ room', r'.1 = <[ "LOBBY2" := room' ]> s ∧ status room' = Playing ∧
     solutionWord room' = "HELLO") ∧
  (∃ room',
     RoomManager.startGame 0 2000 "LOBBY2" (Some " zzzzz ") s
       = Ok (<[ "LOBBY2" := room' ]> s) room' ∧
     solutionWord room' = "ZZZZZ").
Proof.
  cbv zeta.
  destruct (invalid_custom_word Examples.dictionary 0 2000 "LOBBY2" " zzzzz "
              Examples.table eq_refl) as (Hbad & _ & Hdirect).
  destruct (invalid_custom_word Examples.dictionary 0 2000 "LOBBY2"
              Examples.blank Examples.table eq_refl) as (_ & Hblank & _).
  assert (JsString.trim " zzzzz " ≠ "") as Hne by (by vm_compute).
  split; [|split].
  - destruct (Hbad Hne eq_refl) as (Hs & _ & Hmsg).
    split; [done|].
    apply (Hmsg (Examples.lobby "LOBBY2" Duel
                   [Examples.fresh "A"; Examples.fresh "B"]) eq_refl).
    vm_compute; lia.
  - destruct (Hblank eq_refl) as (_ & Hstart).
    destruct (Hstart (Examples.lobby "LOBBY2" Duel
                        [Examples.fresh "A"; Examples.fresh "B"])
                eq_refl eq_refl) as (room' & H1 & H2 & H3 & _);
      [vm_compute; lia|].
    exists room'. split_and!; [done|done|by rewrite H3].
  - destruct (Hdirect Hne (Examples.lobby "LOBBY2" Duel
                             [Examples.fresh "A"; Examples.fresh "B"])
                eq_refl eq_refl) as (room' & H1 & _ & H3);
      [vm_compute; lia|].
    exists room'. split; [done|by rewrite H3].
Defined.

Lemma duel_exhaustion_witness :
  let s := Examples.table in
  (∃ room',
     (GameHandler.handleSubmitGuess 2000 "DUEL03" "A" "WORLD" 6 s).1 !! "DUEL03"
       = Some room' ∧ status room' = Finished ∧
     GameOver None "HELLO" Finished Duel (players room')
       ∈ (GameHandler.handleSubmitGuess 2000 "DUEL03" "A" "WORLD" 6 s).2) ∧
  (∃ room',
     (GameHandler.handleSubmitGuess 2000 "DUEL04" "A" "WORLD" 6 s).1 !! "DUEL04"
       = Some room' ∧ status room' = Playing ∧
     Forall (λ e, is_game_over e = false)
       (GameHandler.handleSubmitGuess 2000 "DUEL04" "A" "WORLD" 6 s).2).
Proof.
  cbv zeta. split.
  - destruct (duel_exhaustion 2000 "DUEL03" "A" "WORLD" 6 Examples.table
                (Examples.game "DUEL03" Duel Playing
                   [Examples.tried 5 "A";
                    set_eliminated true (Examples.tried 6 "B")])
                0 (Examples.tried 5 "A"))
      as (room' & Hr & Hdraw & _); try done; try (vm_compute; lia).
    exists room'. split; [done|]. apply Hdraw.
    exists 1, (set_eliminated true (Examples.tried 6 "B")).
    split; [done|]. vm_compute; lia.
  - destruct (duel_exhaustion 2000 "DUEL04" "A" "WORLD" 6 Examples.table
                (Examples.game "DUEL04" Duel Playing
                   [Examples.tried 5 "A"; Examples.tried 3 "B"])
                0 (Examples.tried 5 "A"))
      as (room' & Hr & _ & Hstay); try done; try (vm_compute; lia).
    exists room'. split; [done|]. apply Hstay.
    intros j other [= <- <-]. vm_compute; lia.
Defined.

Lemma submitGuess_frame_witness :
  let s := Examples.table in
  ∃ s' res,
    RoomManager.submitGuess 2000 "ROYAL3" "B" "HELLO" 6 s = Ok s' res ∧
    status <$> s' !! "ROYAL3" = status <$> s !! "ROYAL3" ∧
    solutionWord <$> s' !! "ROYAL3" = solutionWord <$> s !! "ROYAL3" ∧
    roundNumber <$> s' !! "ROYAL3" = roundNumber <$> s !! "ROYAL3" ∧
    ∀ c', c' ≠ "ROYAL3" → s' !! c' = s !! c'.
Proof.
  cbv zeta.
  destruct (RoomManager.submitGuess 2000 "ROYAL3" "B" "HELLO" 6 Examples.table)
    as [s' res|s' e] eqn:E; [|by vm_compute in E].
  exists s', res. split; [done|].
  destruct (submitGuess_frame 2000 "ROYAL3" "B" "HELLO" 6 Examples.table s' res E)
    as (room & room' & i & p & p' & -> & -> & Hother & Hst & Hw & Hr & _).
  cbn. by rewrite Hst, Hw, Hr.
Defined.

(** * Further properties *)

(** ** Well-formed rooms are kept *)

Lemma room_ok_created (now : Z) (c u : string) (m : Mode) (s : Store) :
  room_ok (RoomManager.createRoom now c u m s).2.
Proof.
  unfold room_ok. cbn. split_and!.
  - done.
  - apply NoDup_singleton.
  - destruct m; vm_compute; lia.
  - apply list_elem_of_here.
  - constructor; [|constructor]. intros _ _. vm_compute. lia.
Qed.

Lemma room_ok_joined (now : Z) (u : string) (room : Room) :
  room_ok room →
  length (players room) < maxPlayers room →
  ¬ Exists (λ p, username p = u) (players room) →
  room_ok (set_lastActivity now
             (set_players (players room ++ [RoomManager.newPlayer now u]) room)).
Proof.
  intros (Hne & Hnd & Hcap & Hhost & Hatt) Hfree Hnew.
  unfold room_ok. cbn. split_and!.
  - by destruct (players room).
  - rewrite fmap_app. apply NoDup_app. split_and!; [done| |apply NoDup_singleton].
    intros x Hx [->|[]%elem_of_nil]%elem_of_cons. apply Hnew.
    apply list_elem_of_fmap in Hx as (p & Hp & Hin).
    apply Exists_exists. by exists p.
  - rewrite length_app. cbn. lia.
  - rewrite fmap_app. apply elem_of_app. by left.
  - apply Forall_app. split; [done|]. constructor; [|constructor].
    intros _ _. vm_compute. lia.
Qed.

Lemma host_survives (u : string) (ps : list Player) (i : nat) (p : Player)
    (h : string) :
  ps !! i = Some p → username p = u → h ≠ u →
  h ∈ username <$> ps → h ∈ username <$> delete i ps.
Proof.
  intros Hi Hu Hne Hh.
  rewrite (delete_Permutation ps i p Hi) in Hh.
  rewrite fmap_cons in Hh. apply elem_of_cons in Hh as [->|Hh]; [congruence|done].
Qed.

Lemma room_ok_left (now : Z) (u : string) (room : Room) (i : nat)
    (p p0 : Player) (rest : list Player) :
  room_ok room →
  players room !! i = Some p → username p = u →
  delete i (players room) = p0 :: rest →
  room_ok (if bool_decide (hostId room = u)
           then set_hostId (username p0) (RoomManager.spliced now i room)
           else RoomManager.spliced now i room).
Proof.
  intros (Hne & Hnd & Hcap & Hhost & Hatt) Hi Hu Hdel.
  assert (players (RoomManager.spliced now i room) = p0 :: rest) as Hps by done.
  assert (NoDup (username <$> p0 :: rest)) as Hnd'.
  { rewrite <- Hdel, list_fmap_delete.
    eapply sublist_NoDup; [done|apply sublist_delete]. }
  assert (length (p0 :: rest) ≤ maxPlayers room) as Hcap'.
  { rewrite <- Hdel, length_delete by eauto. lia. }
  assert (Forall has_attempts_left (p0 :: rest)) as Hatt'.
  { rewrite <- Hdel. by apply Forall_delete. }
  case_bool_decide as Hh; unfold room_ok; cbn; rewrite Hdel;
    (split_and!; [done|done|done| |done]).
  - apply list_elem_of_here.
  - rewrite <- Hdel. by eapply host_survives.
Qed.

Lemma room_ok_started (w : string) (now : Z) (room : Room) :
  room_ok room →
  room_ok
    (set_lastActivity now
       (set_roundNumber 1
          (set_gameStartTime (Some now)
             (set_status Playing
                (set_players (RoomManager.resetPlayer <$> players room)
                   (set_solutionWord w room)))))).
Proof.
  intros (Hne & Hnd & Hcap & Hhost & Hatt).
  assert (username <$> (RoomManager.resetPlayer <$> players room)
          = username <$> players room) as Hnames.
  { rewrite <- list_fmap_compose. by apply list_fmap_ext. }
  unfold room_ok. cbn. rewrite Hnames, length_fmap. split_and!; try done.
  - by destruct (players room).
  - apply Forall_fmap, Forall_true. intros p _ _. vm_compute. lia.
Qed.

Lemma room_ok_updated (room : Room) (i : nat) (p p' : Player) :
  room_ok room →
  players room !! i = Some p → username p' = username p →
  has_attempts_left p' →
  room_ok (set_players (<[i := p']> (players room)) room).
Proof.
  intros (Hne & Hnd & Hcap & Hhost & Hatt) Hi Hu Hp'.
  assert (username <$> <[i := p']> (players room) = username <$> players room)
    as Hnames.
  { rewrite list_fmap_insert, Hu. apply list_insert_id.
    by rewrite list_lookup_fmap, Hi. }
  unfold room_ok. cbn. rewrite Hnames, length_insert. split_and!; try done.
  - intros Hnil. apply (f_equal length) in Hnil.
    rewrite length_insert in Hnil. by destruct (players room).
  - by apply Forall_insert.
Qed.

Lemma room_ok_status (st : Status) (room : Room) :
  room_ok room → room_ok (set_status st room).
Proof. done. Qed.

Lemma room_ok_lastActivity (now : Z) (room : Room) :
  room_ok room → room_ok (set_lastActivity now room).
Proof. done. Qed.

Lemma store_ok_insert (s : Store) (c : string) (room : Room) :
  store_ok s → code room = c → room_ok room → store_ok (<[c := room]> s).
Proof. intros Hs Hc Hr. by apply map_Forall_insert_2. Qed.

Lemma store_ok_lookup (s : Store) (c : string) (room : Room) :
  store_ok s → s !! c = Some room → code room = c ∧ room_ok room.
Proof. intros Hs Hc. by apply (Hs c room). Qed.

Lemma store_ok_addPlayerToRoom (now : Z) (c u : string) (s : Store) :
  store_ok s → store_ok (store_of (RoomManager.addPlayerToRoom now c u s)).
Proof.
  intros Hs. unfold RoomManager.addPlayerToRoom.
  destruct (s !! c) as [room|] eqn:Hc; [|done].
  destruct (store_ok_lookup s c room Hs Hc) as [Hcode Hok].
  case_bool_decide; cbn [negb]; [|done].
  destruct (Nat.leb_spec (maxPlayers room) (length (players room))); [done|].
  case_bool_decide as Hdup; [done|]. cbn [store_of].
  apply store_ok_insert; [done|done|]. by apply room_ok_joined.
Qed.

Lemma store_ok_removePlayerFromRoom (now : Z) (c u : string) (s : Store) :
  store_ok s → store_ok (RoomManager.removePlayerFromRoom now c u s).1.
Proof.
  intros Hs. unfold RoomManager.removePlayerFromRoom.
  destruct (s !! c) as [room|] eqn:Hc; [|done].
  destruct (store_ok_lookup s c room Hs Hc) as [Hcode Hok].
  destruct (find_player u (players room)) as [[i p]|] eqn:Hf; [|done].
  apply find_player_Some in Hf as (Hi & Hu & _).
  destruct (players (RoomManager.spliced now i room)) as [|p0 rest] eqn:Hps;
    cbn [fst].
  - unfold RoomManager.deleteRoom. rewrite delete_insert_eq.
    by apply map_Forall_delete.
  - apply store_ok_insert; [done| |].
    + by case_bool_decide.
    + by apply (room_ok_left now u room i p p0 rest).
Qed.

Lemma store_ok_startGame (rnd : nat) (now : Z) (c : string)
    (customWord : option string) (s : Store) :
  store_ok s →
  store_ok (store_of (RoomManager.startGame rnd now c customWord s)).
Proof.
  intros Hs. unfold RoomManager.startGame.
  destruct (s !! c) as [room|] eqn:Hc; [|done].
  destruct (store_ok_lookup s c room Hs Hc) as [Hcode Hok].
  case_bool_decide; cbn [negb]; [|done].
  destruct (Nat.ltb_spec (length (players room)) 2); [done|].
  cbn [store_of]. apply store_ok_insert; [done|done|].
  exact (room_ok_started _ now room Hok).
Qed.

Lemma submitGuess_attempts (now : Z) (c u guess : string) (n : Z)
    (s s' : Store) (res : RoomManager.SubmitResult) :
  RoomManager.submitGuess now c u guess n s = Ok s' res →
  has_attempts_left (RoomManager.res_player res).
Proof.
  intros H. apply submitGuess_inv in H
    as (room & i & p & p' & _ & _ & _ & _ & -> & _ & _ & _ & _ & _ & _ & Hcase).
  intros Hel Hwon. case_decide.
  - destruct Hcase as (_ & Hw & _). congruence.
  - destruct Hcase as (_ & _ & Hcase). case_decide.
    + destruct Hcase as [_ He]. congruence.
    + lia.
Qed.

Lemma store_ok_submitGuess (now : Z) (c u guess : string) (n : Z) (s : Store) :
  store_ok s →
  store_ok (store_of (RoomManager.submitGuess now c u guess n s)).
Proof.
  intros Hs.
  destruct (RoomManager.submitGuess now c u guess n s) as [s' res|s' e] eqn:H.
  - cbn [store_of]. pose proof (submitGuess_attempts _ _ _ _ _ _ _ _ H) as Hatt.
    apply submitGuess_inv in H
      as (room & i & p & p' & Hc & Hf & _ & _ & Hp' & Hroom & -> & _ & Hu & _).
    destruct (store_ok_lookup s c room Hs Hc) as [Hcode Hok].
    apply find_player_Some in Hf as (Hi & _).
    rewrite Hroom. apply store_ok_insert; [done|done|].
    apply (room_ok_updated room i p p'); try done. by rewrite <- Hp'.
  - apply submitGuess_throw in H as ->. done.
Qed.

Lemma cleanupLoop_sub (maxAgeHours now : Z) (l : list (string * Room))
    (acc : Store) (k : string) (r : Room) :
  RoomManager.cleanupLoop maxAgeHours now l acc !! k = Some r →
  acc !! k = Some r.
Proof.
  unfold RoomManager.cleanupLoop. revert acc.
  induction l as [|[k' r'] l IH]; intros acc H; [done|].
  cbn [foldl fst snd] in H. apply IH in H.
  case_match; [|done]. unfold RoomManager.deleteRoom in H.
  by apply lookup_delete_Some in H as [_ H].
Qed.

Lemma store_ok_cleanupOldRooms (maxAgeHours now : Z) (s : Store) :
  store_ok s → store_ok (RoomManager.cleanupOldRooms maxAgeHours now s).
Proof.
  intros Hs c r H. apply cleanupLoop_sub in H. by apply (Hs c r).
Qed.

Lemma store_ok_finish (c : string) (winner : option string) (room : Room)
    (s : Store) :
  store_ok s → code room = c → room_ok room →
  store_ok (finish c winner room s).1.
Proof. intros. by apply store_ok_insert. Qed.

Lemma store_ok_afterGuess (c u : string) (res : RoomManager.SubmitResult)
    (s : Store) :
  store_ok s → s !! c = Some (RoomManager.res_room res) →
  store_ok (GameHandler.afterGuess c u res s).1.
Proof.
  intros Hs Hc. destruct (store_ok_lookup s c _ Hs Hc) as [Hcode Hok].
  unfold GameHandler.afterGuess.
  repeat case_match; try done; by apply store_ok_finish.
Qed.

Lemma store_ok_handleSubmitGuess (now : Z) (c u guess : string) (n : Z)
    (s : Store) :
  store_ok s → store_ok (GameHandler.handleSubmitGuess now c u guess n s).1.
Proof.
  intros Hs. rewrite handleSubmitGuess_eq.
  destruct (s !! c) as [room|] eqn:Hc; [|done].
  destruct (find_player u (players room)) as [[i p]|]; [|done].
  destruct (eliminated p); [done|].
  destruct (WordValidator.isValidWordFormat guess); [|done]. cbn [negb].
  pose proof (store_ok_submitGuess now c u guess n s Hs) as Hs1.
  destruct (RoomManager.submitGuess now c u guess n s) as [s1 res|s1 e] eqn:H;
    [|done].
  cbn [store_of] in Hs1.
  assert (s1 !! c = Some (RoomManager.res_room res)) as Hc1.
  { apply submitGuess_inv in H
      as (? & ? & ? & ? & _ & _ & _ & _ & _ & _ & -> & _).
    by rewrite lookup_insert_eq. }
  pose proof (store_ok_afterGuess c u res s1 Hs1 Hc1) as Hs2.
  by destruct (GameHandler.afterGuess c u res s1).
Qed.

Lemma store_ok_handleStartGame (words : list string) (rnd : nat) (now : Z)
    (c : string) (customWord : option string) (s : Store) :
  store_ok s →
  store_ok (GameHandler.handleStartGame words rnd now c customWord s).1.
Proof.
  intros Hs. rewrite handleStartGame_eq.
  destruct (s !! c) as [room|] eqn:Hc; [|done].
  repeat (case_match; try done).
  all: match goal with
       | H : RoomManager.startGame _ _ _ _ _ = _ |- _ =>
           pose proof (store_ok_startGame rnd now c customWord s Hs) as Hs1;
           by rewrite H in Hs1
       end.
Qed.

Lemma store_ok_handleJoinRoom (now : Z) (u c : string) (s : Store) :
  store_ok s → store_ok (GameHandler.handleJoinRoom now u c s).1.
Proof.
  intros Hs. unfold GameHandler.handleJoinRoom.
  destruct (s !! c) as [room|] eqn:Hc; [|done].
  destruct (store_ok_lookup s c room Hs Hc) as [Hcode Hok].
  case_bool_decide; cbn [negb fst]; [|done].
  by apply store_ok_insert.
Qed.

Lemma store_ok_handleLeaveRoom (now : Z) (c u : string) (s : Store) :
  store_ok s → store_ok (GameHandler.handleLeaveRoom now c u s).1.
Proof.
  intros Hs. unfold GameHandler.handleLeaveRoom.
  destruct (s !! c) as [room|] eqn:Hc; [|done].
  pose proof (store_ok_removePlayerFromRoom now c u s Hs) as Hs1.
  destruct (RoomManager.removePlayerFromRoom now c u s) as [s1 removed].
  by repeat case_match.
Qed.

(** ** The invariant, operation by operation *)

(** X1. Every operation of the room manager keeps the table well formed:
    creating a room, a join, a leave, the start of a game, a guess and the
    sweep, whether they succeed or throw. *)
Theorem store_ok_room_manager (s : Store) :
  store_ok s →
  (∀ now c u m, store_ok (RoomManager.createRoom now c u m s).1) ∧
  (∀ now c u, store_ok (store_of (RoomManager.addPlayerToRoom now c u s))) ∧
  (∀ now c u, store_ok (RoomManager.removePlayerFromRoom now c u s).1) ∧
  (∀ rnd now c customWord,
     store_ok (store_of (RoomManager.startGame rnd now c customWord s))) ∧
  (∀ now c u guess n,
     store_ok (store_of (RoomManager.submitGuess now c u guess n s))) ∧
  (∀ maxAgeHours now,
     store_ok (RoomManager.cleanupOldRooms maxAgeHours now s)).
Proof.
  intros Hs. split_and!; intros.
  - apply store_ok_insert; [done|done|]. apply (room_ok_created now c u m s).
  - by apply store_ok_addPlayerToRoom.
  - by apply store_ok_removePlayerFromRoom.
  - by apply store_ok_startGame.
  - by apply store_ok_submitGuess.
  - by apply store_ok_cleanupOldRooms.
Qed.

(** X2. The socket handlers keep the table well formed as well: start of
    a game, guess, join and leave. *)
Theorem store_ok_game_handler (words : list string) (s : Store) :
  store_ok s →
  (∀ rnd now c customWord,
     store_ok (GameHandler.handleStartGame words rnd now c customWord s).1) ∧
  (∀ now c u guess n,
     store_ok (GameHandler.handleSubmitGuess now c u guess n s).1) ∧
  (∀ now u c, store_ok (GameHandler.handleJoinRoom now u c s).1) ∧
  (∀ now c u, store_ok (GameHandler.handleLeaveRoom now c u s).1).
Proof.
  intros Hs. split_and!; intros.
  - by apply store_ok_handleStartGame.
  - by apply store_ok_handleSubmitGuess.
  - by apply store_ok_handleJoinRoom.
  - by apply store_ok_handleLeaveRoom.
Qed.

Lemma name_gone (ps : list Player) (i : nat) (p : Player) :
  NoDup (username <$> ps) → ps !! i = Some p →
  username p ∉ username <$> delete i ps.
Proof.
  intros Hnd Hi. rewrite (delete_Permutation ps i p Hi), fmap_cons in Hnd.
  by apply NoDup_cons in Hnd as [? _].
Qed.

(** X3. In a well-formed table, once [removePlayerFromRoom] has run, the
    room, if it is still there, has no player of that name: the name can be
    taken again. *)
Theorem leave_frees_username (now : Z) (c u : string) (s : Store) :
  store_ok s →
  ∀ room', (RoomManager.removePlayerFromRoom now c u s).1 !! c = Some room' →
    u ∉ username <$> players room'.
Proof.
  intros Hs room'. unfold RoomManager.removePlayerFromRoom.
  destruct (s !! c) as [room|] eqn:Hc; [|cbn [fst]; by rewrite Hc].
  destruct (store_ok_lookup s c room Hs Hc) as (_ & _ & Hnd & _).
  destruct (find_player u (players room)) as [[i p]|] eqn:Hf.
  - apply find_player_Some in Hf as (Hi & Hu & _).
    pose proof (name_gone (players room) i p Hnd Hi) as Hgone.
    rewrite Hu in Hgone.
    destruct (players (RoomManager.spliced now i room)) as [|p0 rest] eqn:Hps;
      cbn [fst].
    + unfold RoomManager.deleteRoom. by rewrite lookup_delete_eq.
    + rewrite lookup_insert_eq. intros [= <-].
      assert (delete i (players room) = p0 :: rest) as Hdel by done.
      case_bool_decide; cbn; by rewrite Hdel in *.
  - cbn [fst]. rewrite Hc. intros [= <-].
    apply find_player_None in Hf. intros (q & Hq & Hin)%list_elem_of_fmap.
    apply Hf. by exists q.
Qed.

(** ** Room codes and room creation *)

Lemma generateLoop_spec (draw : nat → string) (s : Store) (fuel a : nat)
    (c : string) :
  RoomManager.maxAttempts < a + fuel →
  RoomManager.generateLoop draw s fuel a = Some c ↔
  ∃ k, a ≤ k < RoomManager.maxAttempts ∧ draw k = c ∧ s !! c = None ∧
       ∀ j, a ≤ j < k → is_Some (s !! draw j).
Proof.
  revert a. induction fuel as [|fuel IH]; intros a Hfuel.
  { cbn. split; [done|]. intros (k & ? & _). lia. }
  cbn [RoomManager.generateLoop].
  destruct (Nat.ltb_spec RoomManager.maxAttempts (S a)) as [Hout|Hin].
  { split; [done|]. intros (k & ? & _). lia. }
  case_bool_decide as Htaken.
  - rewrite IH by lia. split.
    + intros (k & Hk & Hd & Hfree & Hprev). exists k. split_and!; try done; try lia.
      intros j Hj. destruct (decide (j = a)) as [->|]; [done|]. apply Hprev. lia.
    + intros (k & Hk & Hd & Hfree & Hprev).
      destruct (decide (k = a)) as [->|Hne].
      * rewrite Hd, Hfree in Htaken. by destruct Htaken.
      * exists k. split_and!; try done; try lia. intros j Hj. apply Hprev. lia.
  - split.
    + intros [= <-]. exists a. split; [lia|]. split; [done|].
      split; [by apply eq_None_not_Some|]. intros j; lia.
    + intros (k & Hk & Hd & Hfree & Hprev).
      destruct (decide (k = a)) as [->|Hne]; [by rewrite Hd|].
      destruct Htaken. apply Hprev. lia.
Qed.

Lemma generateLoop_none (draw : nat → string) (s : Store) (fuel a : nat) :
  RoomManager.maxAttempts < a + fuel →
  RoomManager.generateLoop draw s fuel a = None ↔
  ∀ k, a ≤ k < RoomManager.maxAttempts → is_Some (s !! draw k).
Proof.
  revert a. induction fuel as [|fuel IH]; intros a Hfuel.
  { cbn. split; [|done]. intros _ k ?. lia. }
  cbn [RoomManager.generateLoop].
  destruct (Nat.ltb_spec RoomManager.maxAttempts (S a)) as [Hout|Hin].
  { split; [|done]. intros _ k ?. lia. }
  case_bool_decide as Htaken.
  - rewrite IH by lia. split.
    + intros H k Hk. destruct (decide (k = a)) as [->|]; [done|]. apply H. lia.
    + intros H k Hk. apply H. lia.
  - split; [done|]. intros H. destruct Htaken. apply H. lia.
Qed.

(** X4. [generateRoomCode] returns the first drawn code that no room of
    the table uses, provided it comes within the first 100 draws; it throws
    exactly when the first 100 draws are all in use. *)
Theorem generateRoomCode_first_free (draw : nat → string) (s : Store) :
  (∀ c, RoomManager.generateRoomCode draw s = Some c ↔
        ∃ k, k < 100 ∧ draw k = c ∧ s !! c = None ∧
             ∀ j, j < k → is_Some (s !! draw j)) ∧
  (RoomManager.generateRoomCode draw s = None ↔
   ∀ k, k < 100 → is_Some (s !! draw k)).
Proof.
  unfold RoomManager.generateRoomCode. split.
  - intros c. rewrite generateLoop_spec by lia.
    unfold RoomManager.maxAttempts. split.
    + intros (k & Hk & Hd & Hfree & Hprev). exists k. split_and!; try done; try lia.
      intros j Hj. apply Hprev. lia.
    + intros (k & Hk & Hd & Hfree & Hprev). exists k. split_and!; try done; try lia.
      intros j Hj. apply Hprev. lia.
  - rewrite generateLoop_none by lia. unfold RoomManager.maxAttempts. split.
    + intros H k Hk. apply H. lia.
    + intros H k Hk. apply H. lia.
Qed.

(** X5. Creating a room never touches an existing one: the new room is
    stored under a code that was free, every other code is bound as before,
    the table has one room more, and deleting the new room gives the old
    table back. The new room is waiting, with its creator as host and only
    player, and holds two players in a duel, eight otherwise. *)
Theorem createRoomDrawn_fresh (draw : nat → string) (now : Z) (u : string)
    (m : Mode) (s s' : Store) (room : Room) :
  RoomManager.createRoomDrawn draw now u m s = Some (s', room) →
  s !! code room = None ∧
  s' !! code room = Some room ∧
  (∀ c, c ≠ code room → s' !! c = s !! c) ∧
  size s' = S (size s) ∧
  hostId room = u ∧
  players room = [RoomManager.newPlayer now u] ∧
  status room = Waiting ∧
  maxPlayers room = match m with Duel => 2 | BattleRoyale => 8 end ∧
  RoomManager.deleteRoom (code room) s' = s ∧
  (store_ok s → store_ok s').
Proof.
  unfold RoomManager.createRoomDrawn. intros H.
  destruct (RoomManager.generateRoomCode draw s) as [c|] eqn:Hgen; [|done].
  cbn in H. injection H as <- <-. cbn [code].
  unfold RoomManager.generateRoomCode in Hgen.
  apply generateLoop_spec in Hgen as (k & _ & _ & Hfree & _);
    [|unfold RoomManager.maxAttempts; lia].
  split_and!; try done.
  - by rewrite lookup_insert_eq.
  - intros c' Hne. by rewrite lookup_insert_ne.
  - by apply map_size_insert_None.
  - unfold RoomManager.deleteRoom. rewrite delete_insert_eq. by apply delete_id.
  - intros Hs. apply store_ok_insert; [done|done|].
    apply (room_ok_created now c u m s).
Qed.

(** ** Joining and leaving through the socket *)

(** X6. The [join-room] event of the socket never changes who is in a
    room, its status or its host: a missing or started room is answered by
    an error and nothing changes; a waiting room gets a new time of last
    activity and is broadcast. *)
Theorem handleJoinRoom_membership (now : Z) (u c : string) (s : Store) :
  let r := GameHandler.handleJoinRoom now u c s in
  (∀ c', players <$> r.1 !! c' = players <$> s !! c' ∧
         status <$> r.1 !! c' = status <$> s !! c' ∧
         hostId <$> r.1 !! c' = hostId <$> s !! c') ∧
  match s !! c with
  | None => r = (s, [RoomError "Room not found"])
  | Some room =>
      if decide (status room = Waiting)
      then r.1 !! c = Some (set_lastActivity now room) ∧
           r.2 = [RoomUpdated (set_lastActivity now room)]
      else r = (s, [RoomError "Game already in progress"])
  end.
Proof.
  cbv zeta. unfold GameHandler.handleJoinRoom.
  destruct (s !! c) as [room|] eqn:Hc; [|done].
  case_bool_decide as Hst; cbn [negb fst snd].
  - rewrite decide_True by done. rewrite lookup_insert_eq. split; [|done].
    intros c'. destruct (decide (c = c')) as [<-|Hne].
    + by rewrite lookup_insert_eq, Hc.
    + by rewrite lookup_insert_ne.
  - by rewrite decide_False.
Qed.

(** X7. [handleLeaveRoom] does nothing when the room or the player is
    missing. Otherwise the other rooms are untouched; when the last player
    leaves, the room is gone and nothing is broadcast; when players remain,
    the room broadcast is the stored one, with the remaining players in
    join order. *)
Theorem handleLeaveRoom_broadcast (now : Z) (c u : string) (s : Store) :
  let r := GameHandler.handleLeaveRoom now c u s in
  (s !! c = None → r = (s, [])) ∧
  (∀ room, s !! c = Some room →
     ((¬ ∃ p, p ∈ players room ∧ username p = u) → r = (s, [])) ∧
     (∀ i p, find_player u (players room) = Some (i, p) →
        (∀ c', c' ≠ c → r.1 !! c' = s !! c') ∧
        (delete i (players room) = [] → r.1 !! c = None ∧ r.2 = []) ∧
        (delete i (players room) ≠ [] →
           ∃ room', r.1 !! c = Some room' ∧ r.2 = [RoomUpdated room'] ∧
             players room' = delete i (players room) ∧
             lastActivity room' = now))).
Proof.
  cbv zeta. unfold GameHandler.handleLeaveRoom.
  destruct (s !! c) as [room|] eqn:Hc; [|done].
  split; [done|]. intros ? [= <-].
  unfold RoomManager.removePlayerFromRoom. rewrite Hc. split.
  - intros Hno. apply find_player_None in Hno. by rewrite Hno.
  - intros i p Hf. rewrite Hf.
    unfold RoomManager.spliced, RoomManager.deleteRoom.
    cbn [players set_lastActivity set_players hostId].
    destruct (delete i (players room)) as [|p0 rest] eqn:Hdel.
    + rewrite lookup_delete_eq. cbn [fst snd].
      split; [intros c' Hne; by rewrite lookup_delete_ne, lookup_insert_ne|].
      split; [intros _; by rewrite lookup_delete_eq|]. intros Hnil. by destruct Hnil.
    + rewrite lookup_insert_eq. cbn [fst snd].
      split; [intros c' Hne; by rewrite lookup_insert_ne|].
      split; [done|]. intros _. rewrite lookup_insert_eq.
      eexists. split; [done|]. split; [done|]. by case_bool_decide.
Qed.

(** X8. In a well-formed table, a player who joins a room and leaves it
    again leaves the table as it was, but for the time of last activity of
    that room. *)
Theorem join_then_leave (now now' : Z) (c u : string) (s s1 : Store)
    (room1 : Room) :
  store_ok s →
  RoomManager.addPlayerToRoom now c u s = Ok s1 room1 →
  ∃ room, s !! c = Some room ∧
    RoomManager.removePlayerFromRoom now' c u s1
      = (<[c := set_lastActivity now' room]> s, true).
Proof.
  intros Hs. unfold RoomManager.addPlayerToRoom.
  destruct (s !! c) as [room|] eqn:Hc; [|done].
  destruct (store_ok_lookup s c room Hs Hc)
    as (_ & Hne & _ & _ & Hhost & _).
  case_bool_decide as Hst; cbn [negb]; [|done].
  destruct (Nat.leb_spec (maxPlayers room) (length (players room))); [done|].
  case_bool_decide as Hdup; [done|]. intros [= <- <-].
  exists room. split; [done|].
  unfold RoomManager.removePlayerFromRoom. rewrite lookup_insert_eq.
  cbn [players set_lastActivity set_players].
  assert (find_player u (players room ++ [RoomManager.newPlayer now u])
          = Some (length (players room), RoomManager.newPlayer now u)) as ->.
  { unfold find_player. rewrite list_find_app_r.
    - cbn. by rewrite decide_True.
    - apply list_find_None, Forall_forall. intros q Hq Hu. apply Hdup.
      apply Exists_exists. by exists q. }
  unfold RoomManager.spliced. cbn [players set_lastActivity set_players hostId].
  rewrite delete_middle, app_nil_r.
  destruct (players room) as [|p0 rest] eqn:Hps; [done|].
  rewrite bool_decide_eq_false_2.
  - rewrite insert_insert_eq. f_equal. f_equal.
    destruct room; cbn in *. by subst.
  - intros Hu. apply Hdup. subst u.
    apply list_elem_of_fmap in Hhost as (q & Hq & Hin).
    apply Exists_exists. exists q. by split.
Qed.

(** ** Counters *)

Lemma eliminated_split (ps : list Player) :
  length (filter (λ p, eliminated p = false) ps)
  + length (filter (λ p, eliminated p = true) ps) = length ps.
Proof.
  induction ps as [|p ps IH]; [done|].
  rewrite !filter_cons. destruct (eliminated p).
  - rewrite decide_False, decide_True by done. cbn [length]. lia.
  - rewrite decide_True, decide_False by done. cbn [length]. lia.
Qed.

(** X9. [getRoomStats] answers for the rooms of the table only, and its
    counts add up: the active and the eliminated players together are the
    players of the room. *)
Theorem getRoomStats_counts (c : string) (s : Store) :
  match RoomManager.getRoomStats c s with
  | Some st =>
      ∃ room, s !! c = Some room ∧
        RoomManager.stats_playerCount st = length (players room) ∧
        RoomManager.stats_activePlayers st
          = length (activePlayers (players room)) ∧
        RoomManager.stats_activePlayers st
          + RoomManager.stats_eliminatedPlayers st
          = RoomManager.stats_playerCount st
  | None => s !! c = None
  end.
Proof.
  unfold RoomManager.getRoomStats.
  destruct (s !! c) as [room|]; [|done]. cbn.
  exists room. split_and!; try done. apply eliminated_split.
Qed.

Lemma status_split (rooms : list Room) :
  length (filter (λ r, status r = Waiting) rooms)
  + length (filter (λ r, status r = Playing) rooms)
  + length (filter (λ r, status r = Finished) rooms) = length rooms.
Proof.
  induction rooms as [|r rooms IH]; [done|].
  rewrite !filter_cons. destruct (status r).
  - rewrite decide_True, !decide_False by done. cbn [length]. lia.
  - rewrite decide_False, decide_True, decide_False by done. cbn [length]. lia.
  - rewrite !decide_False, decide_True by done. cbn [length]. lia.
Qed.

Lemma filter_all {A} (P : A → Prop) `{!∀ x, Decision (P x)} (l : list A) :
  Forall P l → filter P l = l.
Proof.
  induction 1 as [|x l Hx Hl IH]; [done|].
  by rewrite filter_cons, decide_True, IH.
Qed.

(** X10. In the counters of [GET /rooms] the waiting, playing and
    finished rooms add up to the total, which is the size of the table; the
    rooms with a player are at most the total, and all of them in a
    well-formed table. *)
Theorem roomCounts_consistent (s : Store) :
  let n := Routes.roomCounts s in
  Routes.total n = size s ∧
  Routes.waiting n + Routes.playing n + Routes.finished n = Routes.total n ∧
  Routes.active n ≤ Routes.total n ∧
  (store_ok s → Routes.active n = Routes.total n).
Proof.
  cbn. unfold RoomManager.getActiveRoomCount, RoomManager.getTotalRoomCount,
    RoomManager.getAllRooms.
  assert (length (map_to_list s).*2 = size s) as Hlen.
  { by rewrite length_fmap, length_map_to_list. }
  split_and!.
  - done.
  - by rewrite status_split.
  - rewrite <- Hlen. apply length_filter.
  - intros Hs. rewrite <- Hlen. f_equal. apply filter_all.
    apply Forall_fmap, Forall_forall. intros [c r] Hin%elem_of_map_to_list.
    destruct (Hs c r Hin) as (_ & Hne & _). cbn.
    destruct (players r); [done|cbn; lia].
Qed.

(** ** The word validator *)

(** X11. [isValidWord] ignores surrounding white space and the case of
    the letters. *)
Theorem isValidWord_insensitive (words : list string) (w : string) :
  WordValidator.isValidWord words (JsString.trim w)
    = WordValidator.isValidWord words w ∧
  WordValidator.isValidWord words (JsString.toUpperCase w)
    = WordValidator.isValidWord words w.
Proof.
  unfold WordValidator.isValidWord. split.
  - rewrite trim_idem.
    destruct (JsString.is_empty w) eqn:Hw; [by destruct w|].
    destruct (JsString.is_empty (JsString.trim w)) eqn:Ht; [|done].
    by destruct (JsString.trim w).
  - by rewrite toUpperCase_empty, trim_toUpperCase, toUpperCase_idem.
Qed.

Lemma prefix_includes (sub w : string) :
  JsString.startsWith sub w = true → JsString.includes sub w = true.
Proof.
  unfold JsString.startsWith. intros H. destruct w; cbn [JsString.includes];
    by rewrite H.
Qed.

Lemma take_short {A} (n : nat) (l : list A) :
  length (take n l) < n → take n l = l.
Proof. intros H. apply take_ge. rewrite length_take in H. lia. Qed.

(** X12. [getSuggestions] returns at most [maxSuggestions] words, each a
    word of the dictionary that contains the normalised input; there are no
    repetitions when the dictionary has none; a blank input gives nothing;
    when fewer than [maxSuggestions] words come back, every word of the
    dictionary that contains the input is among them; and the words that
    start with the input come before the others. *)
Theorem getSuggestions_sound (words : list string) (partialWord : string)
    (maxSuggestions : nat) :
  let r := WordValidator.getSuggestions words partialWord maxSuggestions in
  let np := JsString.toUpperCase (JsString.trim partialWord) in
  length r ≤ maxSuggestions ∧
  (∀ w, w ∈ r → w ∈ words ∧ JsString.includes np w = true) ∧
  (NoDup words → NoDup r) ∧
  (JsString.trim partialWord = "" → r = []) ∧
  (JsString.trim partialWord ≠ "" → length r < maxSuggestions →
   ∀ w, w ∈ words → JsString.includes np w = true → w ∈ r) ∧
  (∀ i j w1 w2, r !! i = Some w1 → r !! j = Some w2 →
     JsString.startsWith np w1 = true → JsString.startsWith np w2 = false →
     i < j).
Proof.
  cbv zeta. unfold WordValidator.getSuggestions.
  set (np := JsString.toUpperCase (JsString.trim partialWord)).
  destruct (JsString.is_empty partialWord) eqn:Hempty.
  { cbn. split_and!; try done; try lia.
    - intros w []%elem_of_nil.
    - intros _. apply NoDup_nil_2.
    - by destruct partialWord. }
  destruct (Nat.eqb_spec (String.length np) 0) as [Hlen|Hlen].
  { cbn. split_and!; try done; try lia.
    - intros w []%elem_of_nil.
    - intros _. apply NoDup_nil_2.
    - intros Hne. exfalso. subst np.
      destruct (JsString.trim partialWord); [done|]. by cbn in Hlen. }
  set (starts := filter (λ w, JsString.startsWith np w = true) words).
  set (S := take maxSuggestions starts).
  assert (∀ w, w ∈ S → w ∈ words ∧ JsString.startsWith np w = true) as HS.
  { intros w Hw. apply subseteq_take in Hw.
    by apply list_elem_of_filter in Hw as [? ?]. }
  assert (NoDup words → NoDup S) as HndS.
  { intros Hnd. eapply sublist_NoDup; [|apply sublist_take].
    by apply NoDup_filter. }
  assert (JsString.trim partialWord = "" → False) as Hnonblank.
  { intros Ht. subst np. by rewrite Ht in Hlen. }
  destruct (Nat.ltb_spec (length S) maxSuggestions) as [Hshort|Hfull].
  - set (others := filter (λ w, JsString.includes np w = true ∧ w ∉ S) words).
    set (C := take (maxSuggestions - length S) others).
    assert (S = starts) as HSall by (by apply take_short).
    assert (∀ w, w ∈ C → w ∈ words ∧ JsString.includes np w = true ∧ w ∉ S)
      as HC.
    { intros w Hw. apply subseteq_take in Hw.
      by apply list_elem_of_filter in Hw as [[? ?] ?]. }
    split_and!.
    + rewrite length_app. unfold C. rewrite length_take. lia.
    + intros w [Hw|Hw]%elem_of_app.
      * destruct (HS w Hw). split; [done|]. by apply prefix_includes.
      * by destruct (HC w Hw) as (? & ? & _).
    + intros Hnd. apply NoDup_app. split_and!; [by apply HndS| |].
      * intros w Hw HwC. by destruct (HC w HwC) as (_ & _ & ?).
      * eapply sublist_NoDup; [|apply sublist_take]. by apply NoDup_filter.
    + intros Ht. by destruct Hnonblank.
    + intros _ Hlt w Hw Hinc. rewrite length_app in Hlt.
      assert (C = others) as -> by (apply take_short; fold C; lia).
      destruct (decide (w ∈ S)) as [?|Hnot]; apply elem_of_app; [by left|right].
      by apply list_elem_of_filter.
    + intros i j w1 w2 Hi Hj Hw1 Hw2.
      destruct (decide (i < length S)) as [Hlt|Hge].
      * destruct (decide (j < length S)) as [Hj'|]; [|lia].
        rewrite lookup_app_l in Hj by done.
        apply list_elem_of_lookup_2 in Hj. destruct (HS w2 Hj). congruence.
      * rewrite lookup_app_r in Hi by lia.
        apply list_elem_of_lookup_2 in Hi. destruct (HC w1 Hi) as (Hw & _ & Hnot).
        destruct Hnot. rewrite HSall. by apply list_elem_of_filter.
  - split_and!.
    + unfold S. rewrite length_take. lia.
    + intros w Hw. destruct (HS w Hw). split; [done|]. by apply prefix_includes.
    + done.
    + intros Ht. by destruct Hnonblank.
    + intros _ Hlt. lia.
    + intros i j w1 w2 Hi Hj Hw1 Hw2.
      apply list_elem_of_lookup_2 in Hj. destruct (HS w2 Hj). congruence.
Qed.

Lemma normal_form_idem (w : string) :
  JsString.toUpperCase (JsString.trim (JsString.toUpperCase (JsString.trim w)))
  = JsString.toUpperCase (JsString.trim w).
Proof. by rewrite trim_toUpperCase, trim_idem, toUpperCase_idem. Qed.

Lemma getWordDifficulty_inv (words : list string) (w : string) (d : nat) :
  WordValidator.getWordDifficulty words w = Some d →
  WordValidator.isValidWord words w = true ∧
  1 ≤ d ≤ (if WordValidator.isCommonWord w then 2 else 3).
Proof.
  unfold WordValidator.getWordDifficulty.
  rewrite isValidWord_normalised.
  destruct (WordValidator.isValidWord words w); [|done]. cbn [negb].
  assert (WordValidator.isCommonWord
            (JsString.toUpperCase (JsString.trim w))
          = WordValidator.isCommonWord w) as ->.
  { unfold WordValidator.isCommonWord. by rewrite normal_form_idem. }
  intros [= <-]. split; [done|].
  repeat match goal with
         | |- context [if ?b then _ else _] => destruct b
         end; cbn; lia.
Qed.

(** X13. [getWordDifficulty] answers ['invalid'] exactly for the words
    [isValidWord] rejects; otherwise the difficulty is 1, 2 or 3, and at
    most 2 for a common word. *)
Theorem getWordDifficulty_range (words : list string) (w : string) :
  match WordValidator.getWordDifficulty words w with
  | Some d =>
      WordValidator.isValidWord words w = true ∧
      1 ≤ d ≤ (if WordValidator.isCommonWord w then 2 else 3)
  | None => WordValidator.isValidWord words w = false
  end.
Proof.
  destruct (WordValidator.getWordDifficulty words w) as [d|] eqn:H.
  - by apply getWordDifficulty_inv.
  - revert H. unfold WordValidator.getWordDifficulty.
    rewrite isValidWord_normalised.
    by destruct (WordValidator.isValidWord words w).
Qed.

(** X14. The three difficulty classes split the valid words of the
    dictionary: a valid entry is in exactly one of the classes 1, 2 and 3,
    and an entry that [isValidWord] rejects is in none. *)
Theorem getWordsByDifficulty_partition (words : list string) (w : string) :
  w ∈ words →
  (WordValidator.isValidWord words w = true →
   ∃ d, 1 ≤ d ≤ 3 ∧ w ∈ WordValidator.getWordsByDifficulty words d ∧
        ∀ d', w ∈ WordValidator.getWordsByDifficulty words d' → d' = d) ∧
  (WordValidator.isValidWord words w = false →
   ∀ d, w ∉ WordValidator.getWordsByDifficulty words d).
Proof.
  intros Hw. unfold WordValidator.getWordsByDifficulty. split.
  - intros Hvalid.
    destruct (WordValidator.getWordDifficulty words w) as [d|] eqn:H.
    + exists d. destruct (getWordDifficulty_inv words w d H) as (_ & Hd).
      split; [destruct (WordValidator.isCommonWord w); lia|]. split.
      * by apply list_elem_of_filter.
      * intros d' [Hd' _]%list_elem_of_filter. congruence.
    + exfalso. revert H. unfold WordValidator.getWordDifficulty.
      by rewrite isValidWord_normalised, Hvalid.
  - intros Hinvalid d [Hd _]%list_elem_of_filter.
    apply getWordDifficulty_inv in Hd as [Hvalid _]. congruence.
Qed.

(** ** Starting a game through the handler *)




(** ** Guesses through the handler *)

(** X16. A guess that is not five upper-case letters, from a player who
    may guess, changes nothing. When the guess is not five letters once
    trimmed, the handler answers 'Invalid guess format' and returns. When
    it is (lower-case letters, white space around), the check of the
    handler lets it through, [RoomManager.submitGuess] throws, and the
    [catch] block fails in [logger.logError]: the player gets no answer at
    all, and the [TypeError] leaves the handler. *)
Theorem handleSubmitGuess_bad_format (now : Z) (c u guess : string) (n : Z)
    (s : Store) (room : Room) (i : nat) (p : Player) :
  s !! c = Some room →
  find_player u (players room) = Some (i, p) →
  eliminated p = false →
  RoomManager.badGuess guess = true →
  GameHandler.callSubmitGuess now c u guess n s =
    if WordValidator.isValidWordFormat guess
    then (s, [], Logger.TypeError)
    else (s, [GameError "Invalid guess format"], Logger.Normal).
Proof.
  intros Hc Hf He Hb.
  unfold GameHandler.callSubmitGuess, GameHandler.trySubmitGuess.
  rewrite Hc, Hf, He.
  destruct (WordValidator.isValidWordFormat guess); [|done]. cbn [negb].
  unfold RoomManager.submitGuess. by rewrite Hc, Hf, He, Hb.
Qed.

Lemma afterGuess_events (c u : string) (res : RoomManager.SubmitResult)
    (s : Store) :
  s !! c = Some (RoomManager.res_room res) →
  let r := GameHandler.afterGuess c u res s in
  let room := RoomManager.res_room res in
  (∀ c', c' ≠ c → r.1 !! c' = s !! c') ∧
  ((r = (s, [])) ∨
   (∃ w, r = (<[c := set_status Finished room]> s,
               [GameOver w (solutionWord room) Finished (mode room)
                  (players room)])) ∨
   (∃ k, mode room = BattleRoyale ∧
         r = (s, [PlayerEliminated u k (players room)]))).
Proof.
  intros Hc. cbv zeta. unfold GameHandler.afterGuess, finish.
  destruct (RoomManager.outcome res);
    destruct (mode (RoomManager.res_room res)) eqn:Hm;
    repeat case_match; cbn [fst snd];
    (split; [intros c' Hne; by rewrite ?lookup_insert_ne by done|]);
    first [ by left
          | right; left; eexists; cbn; rewrite ?Hm; reflexivity
          | right; right; eexists; by split ].
Qed.

(** X17. An accepted guess touches its room only and keeps the players'
    names and order. The broadcast ends with one guess-submitted event,
    carrying the new number of guesses of the player and the outcome flags;
    before it comes nothing (the status is unchanged), or one game-over (the
    room is then [Finished]), or, in a Battle Royale, one player-eliminated
    (the status is unchanged). *)
Theorem handleSubmitGuess_events (now : Z) (c u guess : string) (n : Z)
    (s : Store) (room : Room) (i : nat) (p : Player) :
  s !! c = Some room →
  find_player u (players room) = Some (i, p) →
  eliminated p = false →
  RoomManager.badGuess guess = false →
  let r := GameHandler.handleSubmitGuess now c u guess n s in
  ∃ evs room',
    r.1 !! c = Some room' ∧
    (∀ c', c' ≠ c → r.1 !! c' = s !! c') ∧
    username <$> players room' = username <$> players room ∧
    r.2 = evs ++
          [GuessSubmitted u guess (S (length (guesses p))) (players room')
             (bool_decide (guess = solutionWord room))
             (bool_decide (guess ≠ solutionWord room ∧
                           Config.MAX_GUESSES ≤ S (length (guesses p))))] ∧
    ((evs = [] ∧ status room' = status room) ∨
     (∃ w, evs = [GameOver w (solutionWord room) Finished (mode room)
                    (players room')] ∧
           status room' = Finished) ∨
     (∃ k, evs = [PlayerEliminated u k (players room')] ∧
           mode room = BattleRoyale ∧ status room' = status room)).
Proof.
  intros Hc Hf He Hb.
  destruct (handleSubmitGuess_accepted now c u guess n s room i p Hc Hf He Hb)
    as (s1 & res & Hs & Hs1 & Hr).
  cbv zeta. rewrite Hr. cbn [fst snd]. clear Hr.
  apply submitGuess_inv in Hs
    as (room0 & i0 & p0 & p' & Hc0 & Hf0 & _ & _ & Hp' & Hroom & Hs1' & _ & Hu & _ & Hg & Hcase).
  assert (room0 = room) as -> by congruence.
  assert (i0 = i ∧ p0 = p) as [-> ->] by (split; congruence).
  apply find_player_Some in Hf as (Hi & _).
  assert (username <$> players (RoomManager.res_room res)
          = username <$> players room) as Hnames.
  { rewrite Hroom. cbn. rewrite list_fmap_insert, Hu. apply list_insert_id.
    by rewrite list_lookup_fmap, Hi. }
  assert (length (guesses (RoomManager.res_player res)) = S (length (guesses p)))
    as Hcount.
  { rewrite Hp', Hg, length_app. cbn. lia. }
  assert (RoomManager.res_won res = bool_decide (guess = solutionWord room)
          ∧ RoomManager.res_eliminated res
            = bool_decide (guess ≠ solutionWord room ∧
                           Config.MAX_GUESSES ≤ S (length (guesses p))))
    as [Hwon Hel].
  { unfold RoomManager.res_won, RoomManager.res_eliminated.
    rewrite Hp' in Hcount. rewrite Hcount in Hcase. case_decide.
    - destruct Hcase as (-> & _).
      rewrite bool_decide_eq_true_2 by done.
      by rewrite bool_decide_eq_false_2 by tauto.
    - destruct Hcase as (_ & _ & Hcase). case_decide.
      + destruct Hcase as [-> _]. rewrite bool_decide_eq_false_2 by done.
        by rewrite bool_decide_eq_true_2.
      + destruct Hcase as [-> _]. rewrite bool_decide_eq_false_2 by done.
        by rewrite bool_decide_eq_false_2 by tauto. }
  rewrite Hcount, Hwon, Hel.
  destruct (afterGuess_events c u res s1 Hs1) as [Hframe Hcases].
  assert (∀ c', c' ≠ c → s1 !! c' = s !! c') as Hframe1.
  { intros c' Hne. by rewrite Hs1', lookup_insert_ne. }
  assert (solutionWord (RoomManager.res_room res) = solutionWord room
          ∧ mode (RoomManager.res_room res) = mode room
          ∧ status (RoomManager.res_room res) = status room)
    as (Hsol & Hmode & Hst) by (by rewrite Hroom).
  destruct Hcases as [Hr|[[w Hr]|(k & Hbr & Hr)]]; rewrite Hr; cbn [fst snd].
  - exists [], (RoomManager.res_room res).
    split; [done|]. split; [done|]. split; [done|]. split; [done|].
    left. by split.
  - exists [GameOver w (solutionWord room) Finished (mode room)
              (players (RoomManager.res_room res))],
      (set_status Finished (RoomManager.res_room res)).
    split; [by rewrite lookup_insert_eq|].
    split; [intros c' Hne; rewrite lookup_insert_ne by done; by apply Hframe1|].
    split; [done|]. split; [by rewrite Hsol, Hmode|].
    right. left. by exists w.
  - exists [PlayerEliminated u k (players (RoomManager.res_room res))],
      (RoomManager.res_room res).
    split; [done|]. split; [done|]. split; [done|]. split; [done|].
    right. right. exists k. split; [done|]. split; [by rewrite <- Hmode|done].
Qed.

Lemma activePlayers_insert_out (ps : list Player) (i : nat) (p p' : Player) :
  ps !! i = Some p → eliminated p' = true →
  activePlayers (<[i := p']> ps) = activePlayers (delete i ps).
Proof.
  unfold activePlayers. revert i.
  induction ps as [|q ps IH]; intros i Hi He; [done|].
  destruct i as [|i]; simpl in *.
  - rewrite filter_cons, decide_False; [done|]. by rewrite He.
  - rewrite !filter_cons. case_decide; by rewrite (IH i).
Qed.

(** X18. In a Battle Royale, a player who is not eliminated submits a
    well-formed guess that is not the solution and is their sixth: the
    player is eliminated, and the active players are those who were active
    before, without this one. If exactly one is left the room becomes
    [Finished] and the game-over names that player; otherwise the status is
    unchanged, a player-eliminated event gives the number of active players
    and no game-over is sent. *)
Theorem battle_royale_exhaustion (now : Z) (c u guess : string) (n : Z)
    (s : Store) (room : Room) (i : nat) (p : Player) :
  s !! c = Some room →
  mode room = BattleRoyale →
  find_player u (players room) = Some (i, p) →
  eliminated p = false →
  RoomManager.badGuess guess = false →
  guess ≠ solutionWord room →
  Config.MAX_GUESSES ≤ length (guesses p) + 1 →
  let r := GameHandler.handleSubmitGuess now c u guess n s in
  ∃ room' p',
    r.1 !! c = Some room' ∧
    players room' !! i = Some p' ∧ eliminated p' = true ∧
    activePlayers (players room') = activePlayers (delete i (players room)) ∧
    (∀ w, activePlayers (players room') = [w] →
       status room' = Finished ∧
       GameOver (Some (username w)) (solutionWord room) Finished BattleRoyale
         (players room') ∈ r.2) ∧
    (length (activePlayers (players room')) ≠ 1 →
       status room' = status room ∧
       PlayerEliminated u (length (activePlayers (players room')))
         (players room') ∈ r.2 ∧
       Forall (λ e, is_game_over e = false) r.2).
Proof.
  intros Hc Hmode Hf He Hb Hne Hlen r.
  destruct (handleSubmitGuess_accepted now c u guess n s room i p Hc Hf He Hb)
    as (s1 & res & Hs & Hs1 & Hr).
  subst r. rewrite Hr. cbn [fst snd]. clear Hr.
  apply submitGuess_inv in Hs
    as (room0 & i0 & p0 & p' & Hc0 & Hf0 & _ & _ & _ & Hroom & _ & _ & _ & _ & Hg & Hcase).
  assert (room0 = room) as -> by congruence.
  assert (i0 = i ∧ p0 = p) as [-> ->] by (split; congruence).
  rewrite decide_False in Hcase by done. destruct Hcase as (_ & _ & Hcase).
  rewrite decide_True in Hcase by (rewrite Hg, length_app; cbn; lia).
  destruct Hcase as [Hout Hel].
  apply find_player_Some in Hf as (Hi & _).
  assert (players (RoomManager.res_room res) !! i = Some p') as Hi'.
  { rewrite Hroom. cbn. apply list_lookup_insert_eq. by eapply lookup_lt_Some. }
  assert (activePlayers (players (RoomManager.res_room res))
          = activePlayers (delete i (players room))) as Hact.
  { rewrite Hroom. cbn. by apply (activePlayers_insert_out _ i p). }
  unfold GameHandler.afterGuess. rewrite Hout.
  assert (mode (RoomManager.res_room res) = BattleRoyale) as ->
    by (by rewrite Hroom).
  destruct (Nat.eqb_spec
              (length (activePlayers (players (RoomManager.res_room res)))) 1)
    as [Hone|Hmany].
  - unfold finish. cbn [fst snd]. rewrite lookup_insert_eq.
    exists (set_status Finished (RoomManager.res_room res)), p'.
    cbn [players set_status status].
    split; [done|]. split; [done|]. split; [done|]. split; [done|]. split.
    + intros w Hw. split; [done|]. rewrite Hw. cbn.
      assert (solutionWord (RoomManager.res_room res) = solutionWord room
              ∧ mode (RoomManager.res_room res) = BattleRoyale) as [-> ->]
        by (by rewrite Hroom).
      first [apply list_elem_of_here
            |apply elem_of_app; left; apply list_elem_of_here].
    + intros Hcontra. by rewrite Hone in Hcontra.
  - cbn [fst snd]. rewrite Hs1.
    exists (RoomManager.res_room res), p'.
    split; [done|]. split; [done|]. split; [done|]. split; [done|]. split.
    + intros w Hw. rewrite Hw in Hmany. by destruct Hmany.
    + intros _. split; [by rewrite Hroom|]. split.
      * first [apply list_elem_of_here
            |apply elem_of_app; left; apply list_elem_of_here].
      * by repeat constructor.
Qed.

(** ** The older server: winning a Battle Royale *)

Lemma markWinner_cons (q : Player) (ps : list Player) :
  Legacy.markWinner (q :: ps) =
  if decide (eliminated q = false) then set_won true q :: ps
  else q :: Legacy.markWinner ps.
Proof.
  unfold Legacy.markWinner. simpl. case_decide; [done|].
  by destruct (list_find _ ps) as [[j w]|].
Qed.

Lemma activePlayers_markWinner (ps : list Player) :
  activePlayers (Legacy.markWinner ps) =
  match activePlayers ps with
  | [] => []
  | w :: rest => set_won true w :: rest
  end.
Proof.
  unfold activePlayers. induction ps as [|q ps IH]; [done|].
  rewrite markWinner_cons, (filter_cons _ q ps). case_decide as Hq.
  - by rewrite filter_cons, decide_True.
  - by rewrite filter_cons, decide_False.
Qed.

Lemma markWinner_keeps_eliminated (ps : list Player) (i : nat) (q : Player) :
  ps !! i = Some q → eliminated q = true → Legacy.markWinner ps !! i = Some q.
Proof.
  revert i. induction ps as [|x ps IH]; intros i Hi Hq; [done|].
  rewrite markWinner_cons. destruct i as [|i]; simpl in *.
  - injection Hi as ->. rewrite decide_False; [done|]. by rewrite Hq.
  - case_decide; [done|]. by apply IH.
Qed.

(** X19. The older server, in a Battle Royale, on a well-formed guess
    equal to the solution from a player who is not eliminated: the player
    wins with the attempt number as score and is marked eliminated. If
    exactly one active player is left, that player is marked as winner, the
    room becomes [Finished] and the game-over names that player; otherwise
    the status is unchanged and a player-eliminated event is sent, without
    game-over. *)
Theorem legacy_battle_royale_win (c u guess : string) (n : Z) (s : Store)
    (room : Room) (i : nat) (p : Player) :
  s !! c = Some room →
  mode room = BattleRoyale →
  find_player u (players room) = Some (i, p) →
  eliminated p = false →
  RoomManager.badGuess guess = false →
  guess = solutionWord room →
  let r := Legacy.submitGuess c u guess n s in
  ∃ room' p',
    r.1 !! c = Some room' ∧
    players room' !! i = Some p' ∧
    eliminated p' = true ∧ won p' = true ∧ score p' = n ∧
    (∀ w, activePlayers (players room') = [w] →
       status room' = Finished ∧ won w = true ∧
       GameOver (Some (username w)) (solutionWord room) Finished BattleRoyale
         (players room') ∈ r.2) ∧
    (length (activePlayers (players room')) ≠ 1 →
       status room' = status room ∧
       PlayerEliminated u (length (activePlayers (players room')))
         (players room') ∈ r.2 ∧
       Forall (λ e, is_game_over e = false) r.2).
Proof.
  intros Hc Hmode Hf He Hb Hw r. subst r.
  unfold Legacy.submitGuess. rewrite Hc, Hf, He, Hb. cbn [negb].
  rewrite bool_decide_eq_true_2 by done. rewrite Hmode.
  apply find_player_Some in Hf as (Hi & _).
  unfold Legacy.eliminate. cbn [players set_players].
  rewrite list_insert_insert_eq.
  set (pe := set_eliminated true _).
  set (ps1 := <[i := pe]> (players room)).
  assert (ps1 !! i = Some pe) as Hi1.
  { apply list_lookup_insert_eq. by eapply lookup_lt_Some. }
  destruct (Nat.eqb_spec (length (activePlayers ps1)) 1) as [Hone|Hmany].
  - unfold finish. cbn [fst snd players set_players set_status status
                        solutionWord mode].
    rewrite lookup_insert_eq. eexists _, pe.
    split; [done|]. cbn [players set_players set_status status].
    split; [by apply markWinner_keeps_eliminated|].
    split; [done|]. split; [done|]. split; [done|].
    rewrite activePlayers_markWinner.
    destruct (activePlayers ps1) as [|w0 [|? ?]] eqn:Hact; try done.
    split.
    + intros w [= <-]. split; [done|]. split; [done|].
      rewrite Hmode. cbn. apply list_elem_of_here.
    + intros Hcontra. by destruct Hcontra.
  - cbn [fst snd]. rewrite lookup_insert_eq. eexists _, pe.
    split; [done|]. cbn [players set_players status].
    split; [done|].
    split; [done|]. split; [done|]. split; [done|]. split.
    + intros w Hact. rewrite Hact in Hmany. by destruct Hmany.
    + intros _. split; [done|]. split; [apply list_elem_of_here|].
      by repeat constructor.
Qed.

(** ** The further properties on the sample rooms *)

Lemma store_ok_room_manager_witness :
  store_ok Examples.table ∧
  store_ok (RoomManager.removePlayerFromRoom 2000 "LOBBY3" "A" Examples.table).1 ∧
  store_ok (store_of (RoomManager.submitGuess 2000 "DUEL03" "A" "WORLD" 6
                        Examples.table)) ∧
  store_ok (RoomManager.cleanupOldRooms 24 2000 Examples.table).
Proof.
  assert (store_ok Examples.table) as Hok
    by (apply (bool_decide_unpack _); by vm_compute).
  destruct (store_ok_room_manager Examples.table Hok)
    as (_ & _ & Hremove & _ & Hguess & Hsweep).
  split; [done|]. split; [apply Hremove|]. split; [apply Hguess|apply Hsweep].
Defined.

Lemma store_ok_game_handler_witness :
  store_ok (GameHandler.handleSubmitGuess 2000 "ROYAL3" "B" "WORLD" 6
              Examples.table).1 ∧
  store_ok (GameHandler.handleStartGame Examples.dictionary 0 2000 "LOBBY3"
              (Some "games") Examples.table).1 ∧
  store_ok (GameHandler.handleLeaveRoom 2000 "SOLO01" "A" Examples.table).1.
Proof.
  assert (store_ok Examples.table) as Hok
    by (apply (bool_decide_unpack _); by vm_compute).
  destruct (store_ok_game_handler Examples.dictionary Examples.table Hok)
    as (Hstart & Hguess & _ & Hleave).
  split; [apply Hguess|]. split; [apply Hstart|apply Hleave].
Defined.

Lemma generateRoomCode_first_free_witness :
  RoomManager.generateRoomCode Examples.draws Examples.table = Some "FRESH1" ∧
  RoomManager.generateRoomCode Examples.stuck Examples.table = None.
Proof.
  split.
  - apply (proj1 (generateRoomCode_first_free Examples.draws Examples.table)).
    exists 3. split; [lia|]. split; [done|]. split; [done|].
    intros [|[|[|j]]] Hj; [by vm_compute; eexists..|lia].
  - apply (proj2 (generateRoomCode_first_free Examples.stuck Examples.table)).
    intros k _. by vm_compute; eexists.
Defined.

Lemma createRoomDrawn_fresh_witness :
  ∃ s' room,
    RoomManager.createRoomDrawn Examples.draws 2000 "Z" Duel Examples.table
      = Some (s', room) ∧
    Examples.table !! code room = None ∧
    s' !! code room = Some room ∧
    size s' = S (size Examples.table) ∧
    RoomManager.deleteRoom (code room) s' = Examples.table.
Proof.
  destruct (RoomManager.createRoomDrawn Examples.draws 2000 "Z" Duel
              Examples.table) as [[s' room]|] eqn:E; [|by vm_compute in E].
  exists s', room. split; [done|].
  destruct (createRoomDrawn_fresh _ _ _ _ _ _ _ E)
    as (Hfree & Hnew & _ & Hsize & _ & _ & _ & _ & Hdel & _).
  by split_and!.
Defined.

Lemma join_then_leave_witness :
  ∃ s1 room1,
    RoomManager.addPlayerToRoom 2000 "LOBBY3" "D" Examples.table
      = Ok s1 room1 ∧
    ∃ room, Examples.table !! "LOBBY3" = Some room ∧
      RoomManager.removePlayerFromRoom 2001 "LOBBY3" "D" s1
        = (<["LOBBY3" := set_lastActivity 2001 room]> Examples.table, true).
Proof.
  destruct (RoomManager.addPlayerToRoom 2000 "LOBBY3" "D" Examples.table)
    as [s1 room1|s1 e] eqn:E; [|by vm_compute in E].
  exists s1, room1. split; [done|].
  apply (join_then_leave 2000 2001 "LOBBY3" "D" Examples.table s1 room1);
    [|done].
  apply (bool_decide_unpack _). by vm_compute.
Defined.

Lemma leave_frees_username_witness :
  ∃ room',
    (RoomManager.removePlayerFromRoom 2000 "LOBBY3" "B" Examples.table).1
      !! "LOBBY3" = Some room' ∧
    "B" ∉ username <$> players room'.
Proof.
  destruct ((RoomManager.removePlayerFromRoom 2000 "LOBBY3" "B"
               Examples.table).1 !! "LOBBY3") as [room'|] eqn:E;
    [|by vm_compute in E].
  exists room'. split; [done|].
  apply (leave_frees_username 2000 "LOBBY3" "B" Examples.table); [|done].
  apply (bool_decide_unpack _). by vm_compute.
Defined.

Lemma roomCounts_consistent_witness :
  Routes.active (Routes.roomCounts Examples.table)
  = Routes.total (Routes.roomCounts Examples.table).
Proof.
  apply (roomCounts_consistent Examples.table).
  apply (bool_decide_unpack _). by vm_compute.
Defined.

Lemma handleSubmitGuess_bad_format_witness :
  GameHandler.callSubmitGuess 2000 "DUEL01" "A" "hello" 1 Examples.table
    = (Examples.table, [], Logger.TypeError) ∧
  GameHandler.callSubmitGuess 2000 "DUEL01" "A" "HELLO " 1 Examples.table
    = (Examples.table, [], Logger.TypeError) ∧
  GameHandler.callSubmitGuess 2000 "DUEL01" "A" "HE1LO" 1 Examples.table
    = (Examples.table, [GameError "Invalid guess format"], Logger.Normal).
Proof.
  split_and!.
  - by apply (handleSubmitGuess_bad_format 2000 "DUEL01" "A" "hello" 1
                Examples.table
                (Examples.game "DUEL01" Duel Playing
                   [Examples.fresh "A"; Examples.fresh "B"])
                0 (Examples.fresh "A")).
  - by apply (handleSubmitGuess_bad_format 2000 "DUEL01" "A" "HELLO " 1
                Examples.table
                (Examples.game "DUEL01" Duel Playing
                   [Examples.fresh "A"; Examples.fresh "B"])
                0 (Examples.fresh "A")).
  - by apply (handleSubmitGuess_bad_format 2000 "DUEL01" "A" "HE1LO" 1
                Examples.table
                (Examples.game "DUEL01" Duel Playing
                   [Examples.fresh "A"; Examples.fresh "B"])
                0 (Examples.fresh "A")).
Defined.


Lemma handleSubmitGuess_events_witness :
  ∃ evs room',
    (GameHandler.handleSubmitGuess 2000 "DUEL03" "A" "WORLD" 6
       Examples.table).1 !! "DUEL03" = Some room' ∧
    (GameHandler.handleSubmitGuess 2000 "DUEL03" "A" "WORLD" 6
       Examples.table).2
      = evs ++ [GuessSubmitted "A" "WORLD" 6 (players room') false true] ∧
    length evs ≤ 1.
Proof.
  destruct (handleSubmitGuess_events 2000 "DUEL03" "A" "WORLD" 6
              Examples.table
              (Examples.game "DUEL03" Duel Playing
                 [Examples.tried 5 "A";
                  set_eliminated true (Examples.tried 6 "B")])
              0 (Examples.tried 5 "A"))
    as (evs & room' & Hr & _ & _ & Hev & Hcases); try done.
  exists evs, room'. split; [done|]. split; [done|].
  destruct Hcases as [[-> _]|[[w [-> _]]|[k [-> _]]]]; cbn; lia.
Defined.

Lemma battle_royale_exhaustion_witness :
  (∃ room',
     (GameHandler.handleSubmitGuess 2000 "ROYAL3" "B" "WORLD" 6
        Examples.table).1 !! "ROYAL3" = Some room' ∧
     status room' = Playing ∧
     PlayerEliminated "B" 2 (players room')
       ∈ (GameHandler.handleSubmitGuess 2000 "ROYAL3" "B" "WORLD" 6
            Examples.table).2) ∧
  (∃ room',
     (GameHandler.handleSubmitGuess 2000 "ROYAL4" "A" "WORLD" 6
        Examples.arena).1 !! "ROYAL4" = Some room' ∧
     status room' = Finished ∧
     GameOver (Some "B") "HELLO" Finished BattleRoyale (players room')
       ∈ (GameHandler.handleSubmitGuess 2000 "ROYAL4" "A" "WORLD" 6
            Examples.arena).2).
Proof.
  split.
  - destruct (battle_royale_exhaustion 2000 "ROYAL3" "B" "WORLD" 6
                Examples.table
                (Examples.game "ROYAL3" BattleRoyale Playing
                   [Examples.fresh "A"; Examples.tried 5 "B";
                    Examples.fresh "C"])
                1 (Examples.tried 5 "B"))
      as (room' & p' & Hr & _ & _ & Hact & _ & Hmany);
      try done; try (vm_compute; lia).
    exists room'. split; [done|].
    assert (length (activePlayers (players room')) = 2) as Hlen
      by (by rewrite Hact).
    rewrite Hlen in Hmany. destruct Hmany as (Hst & Hev & _); [lia|].
    by split.
  - destruct (battle_royale_exhaustion 2000 "ROYAL4" "A" "WORLD" 6
                Examples.arena
                (Examples.game "ROYAL4" BattleRoyale Playing
                   [Examples.tried 5 "A"; Examples.fresh "B"])
                0 (Examples.tried 5 "A"))
      as (room' & p' & Hr & _ & _ & Hact & Hone & _);
      try done; try (vm_compute; lia).
    exists room'. split; [done|].
    apply (Hone (Examples.fresh "B")). by rewrite Hact.
Defined.

Lemma handleLeaveRoom_broadcast_witness :
  (GameHandler.handleLeaveRoom 2000 "SOLO01" "A" Examples.table).2 = [] ∧
  (GameHandler.handleLeaveRoom 2000 "SOLO01" "A" Examples.table).1
    !! "SOLO01" = None ∧
  (∃ room',
     (GameHandler.handleLeaveRoom 2000 "LOBBY3" "A" Examples.table).2
       = [RoomUpdated room'] ∧
     players room' = [Examples.fresh "B"; Examples.fresh "C"]).
Proof.
  destruct (handleLeaveRoom_broadcast 2000 "SOLO01" "A" Examples.table)
    as (_ & Hsolo).
  destruct (Hsolo (Examples.lobby "SOLO01" BattleRoyale [Examples.fresh "A"])
              eq_refl) as (_ & Hsolo').
  destruct (Hsolo' 0 (Examples.fresh "A") eq_refl) as (_ & Hlast & _).
  destruct (Hlast eq_refl) as [Hgone Hnone].
  destruct (handleLeaveRoom_broadcast 2000 "LOBBY3" "A" Examples.table)
    as (_ & Hl3).
  destruct (Hl3 (Examples.lobby "LOBBY3" BattleRoyale
                   [Examples.fresh "A"; Examples.fresh "B"; Examples.fresh "C"])
              eq_refl) as (_ & Hl3').
  destruct (Hl3' 0 (Examples.fresh "A") eq_refl) as (_ & _ & Hrest).
  destruct Hrest as (room' & _ & Hev & Hps & _); [done|].
  split; [done|]. split; [done|]. by exists room'.
Defined.

Lemma legacy_battle_royale_win_witness :
  ∃ room',
    (Legacy.submitGuess "ROYAL2" "A" "HELLO" 3 Examples.table).1 !! "ROYAL2"
      = Some room' ∧
    status room' = Finished ∧
    GameOver (Some "B") "HELLO" Finished BattleRoyale (players room')
      ∈ (Legacy.submitGuess "ROYAL2" "A" "HELLO" 3 Examples.table).2.
Proof.
  destruct (legacy_battle_royale_win "ROYAL2" "A" "HELLO" 3 Examples.table
              (Examples.game "ROYAL2" BattleRoyale Playing
                 [Examples.fresh "A"; Examples.fresh "B"])
              0 (Examples.fresh "A"))
    as (room' & p' & Hr & Hi & _ & _ & _ & Hone & _); try done.
  exists room'. split; [done|].
  assert (activePlayers (players room') = [set_won true (Examples.fresh "B")])
    as Hact.
  { revert Hr. vm_compute. by intros [= <-]. }
  destruct (Hone _ Hact) as (Hst & _ & Hev). by split.
Defined.

Lemma getSuggestions_sound_witness :
  length (WordValidator.getSuggestions Examples.dictionary " s" 2) ≤ 2 ∧
  (∀ w, w ∈ WordValidator.getSuggestions Examples.dictionary " s" 2 →
        w ∈ Examples.dictionary ∧ JsString.includes "S" w = true) ∧
  NoDup (WordValidator.getSuggestions Examples.dictionary " s" 2) ∧
  WordValidator.getSuggestions Examples.dictionary "   " 2 = [].
Proof.
  destruct (getSuggestions_sound Examples.dictionary " s" 2)
    as (Hlen & Hin & Hnd & _).
  destruct (getSuggestions_sound Examples.dictionary "   " 2)
    as (_ & _ & _ & Hblank & _).
  split; [done|]. split; [done|]. split.
  - apply Hnd. apply (bool_decide_unpack _). by vm_compute.
  - by apply Hblank.
Defined.

Lemma getWordsByDifficulty_partition_witness :
  (∃ d, 1 ≤ d ≤ 3 ∧
        "QUICK" ∈ WordValidator.getWordsByDifficulty Examples.dictionary d) ∧
  (∀ d, "FAST" ∉ WordValidator.getWordsByDifficulty
                    ("FAST" :: Examples.dictionary) d).
Proof.
  split.
  - destruct (getWordsByDifficulty_partition Examples.dictionary "QUICK")
      as (Hvalid & _).
    { apply (bool_decide_unpack _). by vm_compute. }
    destruct Hvalid as (d & Hd & Hin & _); [done|]. by exists d.
  - destruct (getWordsByDifficulty_partition ("FAST" :: Examples.dictionary)
                "FAST") as (_ & Hinvalid).
    { apply list_elem_of_here. }
    by apply Hinvalid.
Defined.
